(** * cast_control: the device wrapper and the discovery loop

    A shallow embedding of [cast_control/wrapper.py] and
    [cast_control/run.py], with the properties their specification
    states about them.

    Conventions of the embedding:
    - a Python [Optional[T]] is an [option T]; a Python [float] is an
      exact rational ([Q]), an [int] is a [Z]; arithmetic on rationals is
      exact where the source rounds to the nearest double;
    - a Python [str] is a [string] of bytes; [str.lower] acts on the
      ASCII letters;
    - the device handle belongs to the transport client: every method of
      the wrapper reads it afresh, so it is an argument of each call,
      while the wrapper's own attributes are threaded as a state;
    - commands sent to collaborators are recorded in a trace. *)

From Stdlib Require Import ZArith QArith Qround Qabs Lqa String Ascii List Lia Bool Sorted.
From stdpp Require Import gmap strings.
Import ListNotations.

Open Scope string_scope.

(** ** Python's string primitives *)

Module pystr.

(** Truth value of a [str]: the empty string is false. *)
Definition truthy (s : string) : bool :=
  match s with
  | EmptyString => false
  | String _ _ => true
  end.

(** [strip_prefix p s] is [Some t] when [s = p ++ t]. *)
Fixpoint strip_prefix (p s : string) : option string :=
  match p with
  | EmptyString => Some s
  | String a p' =>
      match s with
      | EmptyString => None
      | String b s' => if Ascii.eqb a b then strip_prefix p' s' else None
      end
  end.

Definition startswith (p s : string) : bool :=
  match strip_prefix p s with
  | Some _ => true
  | None => false
  end.

(** [sub in s] *)
Fixpoint contains (sub s : string) : bool :=
  startswith sub s ||
  match s with
  | EmptyString => false
  | String _ s' => contains sub s'
  end.

(** [s.partition(sep)] when [sep] occurs in [s]: the text before the
    first occurrence and the text after it. *)
Fixpoint partition (sep s : string) : option (string * string) :=
  match strip_prefix sep s with
  | Some rest => Some (EmptyString, rest)
  | None =>
      match s with
      | EmptyString => None
      | String c s' =>
          match partition sep s' with
          | Some (a, b) => Some (String c a, b)
          | None => None
          end
      end
  end.

(** [s.split(sep)] for a non-empty [sep] (every separator of the program
    is a literal): cut at the occurrences found from left to right.  The
    counter bounds the number of cuts; [split] starts it above the length
    of the string, so that it never runs out. *)
Fixpoint split_fuel (fuel : nat) (sep s : string) : list string :=
  match fuel with
  | O => [s]
  | S fuel' =>
      match partition sep s with
      | Some (a, b) => a :: split_fuel fuel' sep b
      | None => [s]
      end
  end.

Definition split (sep s : string) : list string :=
  split_fuel (S (String.length s)) sep s.

Definition lower_ascii (c : ascii) : ascii :=
  let n := nat_of_ascii c in
  if (65 <=? n)%nat && (n <=? 90)%nat then ascii_of_nat (n + 32) else c.

(** [s.lower()] *)
Fixpoint lower (s : string) : string :=
  match s with
  | EmptyString => EmptyString
  | String c s' => String (lower_ascii c) (lower s')
  end.

Definition upper_ascii (c : ascii) : ascii :=
  let n := nat_of_ascii c in
  if (97 <=? n)%nat && (n <=? 122)%nat then ascii_of_nat (n - 32) else c.

(** [s.upper()] *)
Fixpoint upper (s : string) : string :=
  match s with
  | EmptyString => EmptyString
  | String c s' => String (upper_ascii c) (upper s')
  end.

(** [*_, x = l] *)
Definition unpack_last (l : list string) : string := List.last l EmptyString.

(** [x, *_ = l] *)
Definition unpack_first (l : list string) : string := List.hd EmptyString l.

End pystr.

(** ** wrapper.py: the content identifier *)

(** [YOUTUBE_URLS] is a set literal and [YT_LONG, YT_SHORT = YOUTUBE_URLS]
    unpacks it in iteration order, which the language does not fix for a
    set of strings: both orders are modelled. *)
Inductive iteration_order := AsWritten | Reversed.

Definition YOUTUBE_URLS (o : iteration_order) : list string :=
  match o with
  | AsWritten => ["youtube.com/"; "youtu.be/"]
  | Reversed => ["youtu.be/"; "youtube.com/"]
  end.

Definition YT_LONG (o : iteration_order) : string :=
  nth 0 (YOUTUBE_URLS o) EmptyString.

Definition YT_SHORT (o : iteration_order) : string :=
  nth 1 (YOUTUBE_URLS o) EmptyString.

Definition YT_VID_URL (o : iteration_order) : string :=
  "https://" ++ YT_LONG o ++ "watch?v=".

Definition is_youtube (o : iteration_order) (uri : string) : bool :=
  let uri := pystr.lower uri in
  existsb (fun yt => pystr.contains yt uri) (YOUTUBE_URLS o).

Definition get_video_id (o : iteration_order) (uri : string) : option string :=
  if negb (is_youtube o uri) then None
  else
    let video_id :=
      if pystr.contains (YT_LONG o) uri then
        Some (pystr.unpack_last (pystr.split "v=" uri))
      else if pystr.contains (YT_SHORT o) uri then
        Some (pystr.unpack_last (pystr.split "/" uri))
      else None in
    match video_id with
    | Some v =>
        if pystr.truthy v && pystr.contains "&" v
        then Some (pystr.unpack_first (pystr.split "&" v))
        else Some v
    | None => None
    end.

(** What the specification calls "everything after the last [sep]":
    [r] is a suffix of [s], [sep] stands right before it, and [sep] does
    not occur in it; when [sep] does not occur at all it is [s] whole. *)
Definition after_last (sep s r : string) : Prop :=
  (exists pre, s = pre ++ sep ++ r /\ pystr.contains sep r = false) \/
  (pystr.contains sep s = false /\ r = s).

(** "Truncated at the first [sep]": [r] is a prefix of [s], [sep] follows
    it, and [sep] does not occur in it; [s] whole when there is no [sep]. *)
Definition before_first (sep s r : string) : Prop :=
  (exists post, s = r ++ sep ++ post /\ pystr.contains sep r = false) \/
  (pystr.contains sep s = false /\ r = s).

(** ** Values, exceptions and the constants of the package *)

(** What a method of the wrapper may hand to the protocol server where a
    number is expected. *)
Inductive pyvalue :=
| PyNone
| PyInt (z : Z)
| PyFloat (q : Q).

Inductive exn :=
| TypeError
| UnpicklingError
| NoChromecastFoundException (device : string)
| SystemExit (rc : Z).

Inductive result (A : Type) :=
| Ok (a : A)
| Raise (e : exn).

Arguments Ok {A} a.
Arguments Raise {A} e.

Definition bind {A B : Type} (r : result A) (k : A -> result B) : result B :=
  match r with
  | Ok a => k a
  | Raise e => Raise e
  end.

Notation "'let*' x ':=' r 'in' k" := (bind r (fun x => k))
  (at level 10, x name, r at level 200, k at level 200).

(** A path of [pathlib]: the directory, the stem of the final component
    and its suffix. *)
Record Path := { path_parent : string; path_stem : string; path_suffix : string }.

Definition with_stem (p : Path) (stem : string) : Path :=
  {| path_parent := path_parent p; path_stem := stem; path_suffix := path_suffix p |}.

#[global] Instance Path_eq_dec : EqDecision Path.
Proof. solve_decision. Defined.

#[global] Instance Path_countable : Countable Path.
Proof.
  apply (inj_countable'
           (fun p => (path_parent p, path_stem p, path_suffix p))
           (fun t => {| path_parent := t.1.1; path_stem := t.1.2; path_suffix := t.2 |})).
  intros []; reflexivity.
Defined.

(** The constants that [cast_control/base.py] exports to the two modules
    embedded here; their values are fixed there, so they are parameters
    of the embedding. *)
Record Base := {
  NO_DURATION : option Z;
  DEFAULT_THUMB : string;
  LIGHT_THUMB : string;
  DEFAULT_DISC_NO : Z;
  NO_DEVICE : string;
  RC_NO_CHROMECAST : Z;
  ARGS : Path;
}.

(** Modelled from the spec: [US_IN_SEC] of base.py, the factor from seconds
    to the protocol's time unit, microseconds. *)
Definition US_IN_SEC : Z := 1000000.

(** Modelled from the spec: [NO_DELTA] of base.py, the zero delta (the
    source says of the comparison with it: can't adjust vol by 0). *)
Definition NO_DELTA : Z := 0.

(** [BEGINNING] of mpris_server.base: time zero. *)
Definition BEGINNING : Z := 0.

Definition MAX_TITLES : nat := 3.
Definition RESOLUTION : nat := 1.

(** ** Numbers *)

Definition Qltb (x y : Q) : bool := negb (Qle_bool y x).

(** Truth value of a number: zero is false. *)
Definition truthy_Q (q : Q) : bool := negb (Qeq_bool q 0).
Definition truthy_Z (z : Z) : bool := negb (z =? 0)%Z.

(** [int(q)]: truncation towards zero. *)
Definition int_of_float (q : Q) : Z := Z.quot (Qnum q) (Zpos (Qden q)).

(** Rounding to the nearest integer, ties to the even one. *)
Definition round_half_even (q : Q) : Z :=
  let fl := Qfloor q in
  match Qcompare (q - inject_Z fl)%Q (1 # 2)%Q with
  | Lt => fl
  | Gt => (fl + 1)%Z
  | Eq => if Z.even fl then fl else (fl + 1)%Z
  end.

(** [round(q, ndigits)] *)
Definition py_round (q : Q) (ndigits : nat) : Q :=
  let scale := inject_Z (10 ^ Z.of_nat ndigits) in
  (inject_Z (round_half_even (q * scale)%Q) / scale)%Q.

(** ** The device handle, as the transport client shows it *)

Record MediaStatus := {
  ms_duration : option Q;
  ms_current_time : option Q;
  ms_adjusted_current_time : option Q;
  ms_artist : option string;
  ms_album_name : option string;
  ms_media_metadata : option (gmap string string);
  ms_content_id : option string;
  ms_track : option Z;
}.

Record MediaController := {
  mc_status : option MediaStatus;
  mc_title : option string;
  mc_thumbnail : option string;
}.

Record CastStatus := {
  cs_volume_level : Q;
  cs_volume_muted : bool;
  cs_icon_url : option string;
}.

Record Chromecast := {
  dev_status : option CastStatus;
  dev_media_controller : MediaController;
  dev_app_display_name : option string;
  dev_name : option string;
}.

(** The wrapper's own attributes. *)
Record DeviceWrapper := {
  _longest_duration : option Z;
  light_icon : bool;
}.

(** Commands the wrapper sends to the device. *)
Inductive command :=
| volume_up (delta : Q)
| volume_down (delta : Q).

(** Truth value of an optional string: [None] and [''] are false. *)
Definition truthy_str (x : option string) : bool :=
  match x with
  | Some s => pystr.truthy s
  | None => false
  end.

(** [x] when the test [if x:] accepts it. *)
Definition truthy_value (x : option string) : option string :=
  match x with
  | Some s => if pystr.truthy s then Some s else None
  | None => None
  end.

(** *** StatusMixin *)

Definition cast_status (dev : Chromecast) : option CastStatus := dev_status dev.

Definition media_controller (dev : Chromecast) : MediaController :=
  dev_media_controller dev.

Definition media_status (dev : Chromecast) : option MediaStatus :=
  mc_status (media_controller dev).

(** *** TitlesMixin *)

Record Titles := {
  title : option string;
  artist : option string;
  album : option string;
}.

(** [Titles] called on an unpacked list: the fields are filled from the
    left, the missing ones keep their default [None]; more than three
    positional arguments are a [TypeError]. *)
Definition Titles_new (args : list string) : result Titles :=
  match args with
  | [] => Ok {| title := None; artist := None; album := None |}
  | [a] => Ok {| title := Some a; artist := None; album := None |}
  | [a; b] => Ok {| title := Some a; artist := Some b; album := None |}
  | [a; b; c] => Ok {| title := Some a; artist := Some b; album := Some c |}
  | _ => Raise TypeError
  end.

(** [if x: titles.append(x)] *)
Definition append_if (x : option string) (titles : list string) : list string :=
  match x with
  | Some s => if pystr.truthy s then (titles ++ [s])%list else titles
  | None => titles
  end.

Definition get_subtitle (dev : Chromecast) : option string :=
  match media_status dev with
  | None => None
  | Some status =>
      match ms_media_metadata status with
      | Some metadata =>
          if negb (bool_decide (metadata = ∅))
             && bool_decide (is_Some (metadata !! "subtitle"))
          then metadata !! "subtitle"
          else None
      | None => None
      end
  end.

Definition titles (dev : Chromecast) : result Titles :=
  let titles : list string := [] in
  let title := mc_title (media_controller dev) in
  let titles := append_if title titles in
  let subtitle := get_subtitle dev in
  let titles := append_if subtitle titles in
  let titles :=
    match media_status dev with
    | Some status =>
        let artist := ms_artist status in
        let titles := append_if artist titles in
        let album := ms_album_name status in
        append_if album titles
    | None => titles
    end in
  let app_name := dev_app_display_name dev in
  let titles := append_if app_name titles in
  let titles := firstn MAX_TITLES titles in
  Titles_new titles.

(** *** TimeMixin *)

(** [__init__] *)
Definition DeviceWrapper_init (b : Base) : DeviceWrapper :=
  {| _longest_duration := NO_DURATION b; light_icon := false |}.

Definition set_longest (self : DeviceWrapper) (v : option Z) : DeviceWrapper :=
  {| _longest_duration := v; light_icon := light_icon self |}.

Definition pyvalue_of_int (v : option Z) : pyvalue :=
  match v with
  | Some z => PyInt z
  | None => PyNone
  end.

Definition get_current_position (dev : Chromecast) : Z :=
  match media_status dev with
  | None => BEGINNING
  | Some status =>
      match ms_adjusted_current_time status with
      | Some position_secs =>
          if truthy_Q position_secs
          then int_of_float (position_secs * inject_Z US_IN_SEC)%Q
          else BEGINNING
      | None => BEGINNING
      end
  end.

(** The duration the media status reports, when it is one that the test
    [if duration:] accepts. *)
Definition explicit_duration (dev : Chromecast) : option Q :=
  match media_status dev with
  | Some status =>
      match ms_duration status with
      | Some duration => if truthy_Q duration then Some duration else None
      | None => None
      end
  | None => None
  end.

(** [longest and longest > current] *)
Definition longest_exceeds (longest : option Z) (current : Z) : bool :=
  match longest with
  | Some l => truthy_Z l && (current <? l)%Z
  | None => false
  end.

Definition get_duration (b : Base) (dev : Chromecast) (self : DeviceWrapper)
  : pyvalue * DeviceWrapper :=
  let current := get_current_position dev in
  let longest := _longest_duration self in
  match explicit_duration dev with
  | Some duration => (PyFloat (duration * inject_Z US_IN_SEC)%Q, self)
  | None =>
      if longest_exceeds longest current then (pyvalue_of_int longest, self)
      else if truthy_Z current then (PyInt current, set_longest self (Some current))
      else (pyvalue_of_int (NO_DURATION b), self)
  end.

Definition has_current_time (dev : Chromecast) : bool :=
  match media_status dev with
  | None => false
  | Some status =>
      match ms_current_time status with
      | None => false
      | Some t =>
          if negb (truthy_Q t) then false
          else
            let current_time := py_round t RESOLUTION in
            Qltb (inject_Z BEGINNING) current_time
      end
  end.

Definition on_new_status (dev : Chromecast) (self : DeviceWrapper) : DeviceWrapper :=
  if negb (has_current_time dev) then set_longest self None else self.

(** *** IconsMixin *)

Definition set_icon (lighter : bool) (self : DeviceWrapper) : DeviceWrapper :=
  {| _longest_duration := _longest_duration self; light_icon := lighter |}.

Definition get_art_url (b : Base) (dev : Chromecast) (self : DeviceWrapper) : string :=
  let thumb := mc_thumbnail (media_controller dev) in
  match truthy_value thumb with
  | Some thumb => thumb
  | None =>
      let icon := match cast_status dev with
                  | Some status => cs_icon_url status
                  | None => None
                  end in
      match truthy_value icon with
      | Some icon => icon
      | None => if light_icon self then LIGHT_THUMB b else DEFAULT_THUMB b
      end
  end.

(** *** ControllersMixin: the URL of the current content *)

Definition _get_url (o : iteration_order) (dev : Chromecast) (yt_is_active : bool)
  : option string :=
  let content_id := match media_status dev with
                    | Some status => ms_content_id status
                    | None => None
                    end in
  match truthy_value content_id with
  | Some id =>
      if negb (pystr.contains "http" id) && yt_is_active
      then Some (YT_VID_URL o ++ id)
      else content_id
  | None => content_id
  end.

(** *** MetadataMixin *)

(** The two functions of [mpris_server.compat] that build a track id. *)
Record Compat := {
  get_dbus_name : option string -> string;
  enforce_dbus_length : string -> string;
}.

Definition get_track_id (c : Compat) (name : option string) : string :=
  enforce_dbus_length c ("/track/" ++ get_dbus_name c name).

(** The values of the metadata dictionary. *)
Inductive mvalue :=
| MStr (s : option string)
| MList (l : list string)
| MNum (v : pyvalue).

Definition metadata (b : Base) (c : Compat) (o : iteration_order)
    (dev : Chromecast) (yt_is_active : bool) (self : DeviceWrapper)
  : result (gmap string mvalue * DeviceWrapper) :=
  let* t := titles dev in
  let title := title t in
  let artist := artist t in
  let album := album t in
  let artists := match truthy_value artist with
                 | Some a => [a]
                 | None => []
                 end in
  let dbus_name := get_track_id c title in
  let comments : list string := [] in
  let track_no := match media_status dev with
                  | Some status => ms_track status
                  | None => None
                  end in
  let '(length, self) := get_duration b dev self in
  Ok (list_to_map [
        ("mpris:trackid", MStr (Some dbus_name));
        ("mpris:length", MNum length);
        ("mpris:artUrl", MStr (Some (get_art_url b dev self)));
        ("xesam:url", MStr (_get_url o dev yt_is_active));
        ("xesam:title", MStr title);
        ("xesam:artist", MList artists);
        ("xesam:album", MStr album);
        ("xesam:albumArtist", MList artists);
        ("xesam:discNumber", MNum (PyInt (DEFAULT_DISC_NO b)));
        ("xesam:trackNumber", MNum (pyvalue_of_int track_no));
        ("xesam:comment", MList comments)
      ], self).

(** The keys of the fixed schema. *)
Definition metadata_keys : gset string :=
  list_to_set [
    "mpris:trackid"; "mpris:length"; "mpris:artUrl"; "xesam:url";
    "xesam:title"; "xesam:artist"; "xesam:album"; "xesam:albumArtist";
    "xesam:discNumber"; "xesam:trackNumber"; "xesam:comment"
  ].

(** *** VolumeMixin *)

Definition get_volume (dev : Chromecast) : option Q :=
  match cast_status dev with
  | None => None
  | Some status => Some (cs_volume_level status)
  end.

(** [set_volume] returns its outcome and the commands it sent to the
    device; [val - curr] is a [TypeError] when [curr] is [None]. *)
Definition set_volume (dev : Chromecast) (val : Q) : result unit * list command :=
  let curr := get_volume dev in
  match curr with
  | None => (Raise TypeError, [])
  | Some curr =>
      let delta := (val - curr)%Q in
      if Qltb (inject_Z NO_DELTA) delta then (Ok tt, [volume_up delta])
      else if Qltb delta (inject_Z NO_DELTA) then (Ok tt, [volume_down (Qabs delta)])
      else (Ok tt, [])
  end.

(** ** run.py: the saved arguments of the daemon *)

(** [x or y], for a last alternative [y] that is a string. *)
Definition or_else (x : option string) (y : string) : string :=
  match truthy_value x with
  | Some s => s
  | None => y
  end.

(** [name or host or uuid or NO_DEVICE] *)
Definition device_label (b : Base) (name host uuid : option string) : string :=
  or_else name (or_else host (or_else uuid (NO_DEVICE b))).

Module DaemonArgs.

Record t := {
  name : option string;
  host : option string;
  uuid : option string;
  wait : option Q;
  retry_wait : option Q;
  icon : bool;
  log_level : string;
}.

(** The content of a file: what [pickle.dumps] made of a record, or
    anything else.  Only the first kind is modelled in earnest: what
    [pickle.loads] makes of other content (another object, or one of
    several errors) is not, and no property below rests on it. *)
Inductive bytes :=
| pickled (args : t)
| other (data : string).

Definition pickle_dumps (args : t) : bytes := pickled args.

Definition pickle_loads (dump : bytes) : result t :=
  match dump with
  | pickled args => Ok args
  | other _ => Raise UnpicklingError
  end.

(** The property [file]. *)
Definition file (b : Base) (self : t) : Path :=
  let device := device_label b (name self) (host self) (uuid self) in
  with_stem (ARGS b) (device ++ "-args").

Definition load (b : Base) (fs : gmap Path bytes) : result (option t) :=
  match fs !! ARGS b with
  | Some dump => let* args := pickle_loads dump in Ok (Some args)
  | None => Ok None
  end.

Definition delete (b : Base) (fs : gmap Path bytes) : gmap Path bytes :=
  match fs !! ARGS b with
  | Some _ => base.delete (ARGS b) fs
  | None => fs
  end.

Definition save (b : Base) (self : t) (fs : gmap Path bytes) : gmap Path bytes :=
  let dump := pickle_dumps self in
  <[ARGS b := dump]> fs.

End DaemonArgs.

(** ** run.py: discovery and the top-level run *)

Record Server := {
  server_name : option string;
  server_adapter : Chromecast;
}.

(** The requests to the transport client. *)
Inductive lookup :=
| get_chromecast_via_host (host : string)
| get_chromecast_via_uuid (uuid : string)
| get_chromecast (name : option string).

(** The transport client during one sweep: what each request, made with a
    retry wait, yields. *)
Definition Transport : Type := lookup -> option Q -> option Chromecast.

(** What the run does to its collaborators, in order. *)
Inductive event :=
| ev_lookup (l : lookup) (retry_wait : option Q)
| ev_publish (mpris : Server)
| ev_register_mpris_adapter (mpris : Server)
| ev_logging_info (device : string) (wait : Q)
| ev_sleep (wait : Q)
| ev_basicConfig (level : string)
| ev_set_icon (mpris : Server) (lighter : bool)
| ev_loop (mpris : Server)
| ev_logging_warning (device : string)
| ev_sys_exit (rc : Z).

Definition is_sleep (e : event) : bool :=
  match e with
  | ev_sleep _ => true
  | _ => false
  end.

Definition find_device (net : Transport) (name host uuid : option string)
    (retry_wait : option Q) : option Chromecast * list event :=
  let chromecast : option Chromecast := None in
  let trace : list event := [] in
  let '(chromecast, trace) :=
    match truthy_value host with
    | Some h =>
        let l := get_chromecast_via_host h in
        (net l retry_wait, (trace ++ [ev_lookup l retry_wait])%list)
    | None => (chromecast, trace)
    end in
  let '(chromecast, trace) :=
    match truthy_value uuid, chromecast with
    | Some u, None =>
        let l := get_chromecast_via_uuid u in
        (net l retry_wait, (trace ++ [ev_lookup l retry_wait])%list)
    | _, _ => (chromecast, trace)
    end in
  let '(chromecast, trace) :=
    match truthy_value name, chromecast with
    | Some n, None =>
        let l := get_chromecast (Some n) in
        (net l retry_wait, (trace ++ [ev_lookup l retry_wait])%list)
    | _, _ => (chromecast, trace)
    end in
  let no_identifiers :=
    negb (truthy_str host || truthy_str name || truthy_str uuid) in
  if no_identifiers then
    let l := get_chromecast None in
    (net l retry_wait, (trace ++ [ev_lookup l retry_wait])%list)
  else (chromecast, trace).

Definition create_adapters_and_server (net : Transport)
    (name host uuid : option string) (retry_wait : option Q)
  : option Server * list event :=
  let '(chromecast, trace) := find_device net name host uuid retry_wait in
  match chromecast with
  | None => (None, trace)
  | Some chromecast =>
      let mpris := {| server_name := dev_name chromecast;
                      server_adapter := chromecast |} in
      (Some mpris, (trace ++ [ev_publish mpris; ev_register_mpris_adapter mpris])%list)
  end.

(** The loop [while True] of [retry_until_found], unfolded at most [fuel]
    times from the sweep numbered [sweep]; [net i] is the transport client
    during sweep [i].  The first component is [None] when the loop is
    still running after [fuel] sweeps, and [Some r] when it returned [r]. *)
Fixpoint retry_until_found (fuel : nat) (net : nat -> Transport) (sweep : nat)
    (b : Base) (name host uuid : option string) (wait retry_wait : option Q)
  : option (option Server) * list event :=
  match fuel with
  | O => (None, [])
  | S fuel' =>
      let '(mpris, trace) :=
        create_adapters_and_server (net sweep) name host uuid retry_wait in
      match mpris, wait with
      | Some _, _ => (Some mpris, trace)
      | None, None => (Some mpris, trace)
      | None, Some w =>
          let device := device_label b name host uuid in
          let '(r, rest) :=
            retry_until_found fuel' net (S sweep) b name host uuid wait retry_wait in
          (r, (trace ++ [ev_logging_info device w; ev_sleep w] ++ rest)%list)
      end
  end.

Definition set_log_level (level : string) : list event :=
  let level := pystr.upper level in
  [ev_basicConfig level].

(** [run_server]: [None] while discovery is still running after [fuel]
    sweeps, otherwise how the call ends. *)
Definition run_server (fuel : nat) (net : nat -> Transport) (b : Base)
    (name host uuid : option string) (wait retry_wait : option Q)
    (icon : bool) (log_level : string)
  : option (result unit) * list event :=
  let trace := set_log_level log_level in
  let '(found, sweeps) :=
    retry_until_found fuel net 0 b name host uuid wait retry_wait in
  let trace := (trace ++ sweeps)%list in
  match found with
  | None => (None, trace)
  | Some mpris =>
      let trace :=
        match mpris with
        | Some m => if icon then (trace ++ [ev_set_icon m true])%list else trace
        | None => trace
        end in
      match mpris with
      | None =>
          let device := device_label b name host uuid in
          (Some (Raise (NoChromecastFoundException device)), trace)
      | Some m => (Some (Ok tt), (trace ++ [ev_loop m])%list)
      end
  end.

Definition run_safe (fuel : nat) (net : nat -> Transport) (b : Base)
    (name host uuid : option string) (wait retry_wait : option Q)
    (icon : bool) (log_level : string)
  : option (result unit) * list event :=
  match run_server fuel net b name host uuid wait retry_wait icon log_level with
  | (Some (Raise (NoChromecastFoundException e)), trace) =>
      (Some (Raise (SystemExit (RC_NO_CHROMECAST b))),
       (trace ++ [ev_logging_warning e; ev_sys_exit (RC_NO_CHROMECAST b)])%list)
  | outcome => outcome
  end.

(** ** Notions the properties are stated with *)

(** Modelled from the spec: the constants of cast_control/base.py that the
    two modules import, for the examples.  The "no duration" sentinel is
    empty, not zero, and the exit code is not zero; the assets, the label
    of an unnamed device and the file of the saved arguments, which the
    specification leaves open, are placeholders. *)
Definition example_base : Base := {|
  NO_DURATION := None;
  DEFAULT_THUMB := "cc-black.png";
  LIGHT_THUMB := "cc-white.png";
  DEFAULT_DISC_NO := 1;
  NO_DEVICE := "Device";
  RC_NO_CHROMECAST := 1;
  ARGS := {| path_parent := "/tmp/cast_control"; path_stem := "service-args"; path_suffix := ".tmp" |};
|}.

(** The watermark is non-empty and strictly exceeds the position: it is
    neither [None] nor [0], the two values the test [longest] rejects. *)
Definition watermark_exceeds (longest : option Z) (current : Z) : Prop :=
  exists l, longest = Some l /\ l <> 0%Z /\ (current < l)%Z.

(** The order of watermarks: the empty one is below every position. *)
Definition wm_le (x y : option Z) : Prop :=
  match x, y with
  | None, _ => True
  | Some _, None => False
  | Some a, Some c => (a <= c)%Z
  end.

(** The states of a wrapper: those its constructor and its methods make. *)
Inductive reachable (b : Base) : DeviceWrapper -> Prop :=
| reach_init : reachable b (DeviceWrapper_init b)
| reach_get_duration dev self :
    reachable b self -> reachable b (snd (get_duration b dev self))
| reach_on_new_status dev self :
    reachable b self -> reachable b (on_new_status dev self)
| reach_set_icon lighter self :
    reachable b self -> reachable b (set_icon lighter self).

(** The watermarks seen along successive calls of [get_duration], one per
    status of the device, starting with the one before the first call. *)
Fixpoint watermarks (b : Base) (devs : list Chromecast) (self : DeviceWrapper)
  : list (option Z) :=
  match devs with
  | [] => [_longest_duration self]
  | dev :: devs' =>
      _longest_duration self :: watermarks b devs' (snd (get_duration b dev self))
  end.

(** Some devices, for the examples. *)
Definition no_media : MediaController :=
  {| mc_status := None; mc_title := None; mc_thumbnail := None |}.

(** A device that reports neither a cast status nor a media status. *)
Definition silent_device : Chromecast :=
  {| dev_status := None; dev_media_controller := no_media;
     dev_app_display_name := None; dev_name := Some "TV" |}.

(** A device that shows its idle screen: an application is running, no
    media is loaded. *)
Definition idle_device : Chromecast :=
  {| dev_status := Some {| cs_volume_level := 1 # 2; cs_volume_muted := false;
                           cs_icon_url := None |};
     dev_media_controller := no_media;
     dev_app_display_name := Some "Backdrop"; dev_name := Some "TV" |}.

(** A device that plays a medium of unknown duration, [position] seconds
    into it. *)
Definition playing_device (position : Q) : Chromecast :=
  {| dev_status := Some {| cs_volume_level := 1 # 2; cs_volume_muted := false;
                           cs_icon_url := None |};
     dev_media_controller :=
       {| mc_status := Some {| ms_duration := None;
                               ms_current_time := Some position;
                               ms_adjusted_current_time := Some position;
                               ms_artist := None; ms_album_name := None;
                               ms_media_metadata := None;
                               ms_content_id := None; ms_track := None |};
          mc_title := None; mc_thumbnail := None |};
     dev_app_display_name := Some "Radio"; dev_name := Some "TV" |}.

(** The five sources of the title aggregation, in priority order; the
    three that come from the media status are absent with it. *)
Definition title_sources (dev : Chromecast) : list (option string) :=
  let of_status {A} (f : MediaStatus -> option A) : option A :=
    match media_status dev with
    | Some status => f status
    | None => None
    end in
  [ mc_title (media_controller dev);
    of_status (fun status =>
                 match ms_media_metadata status with
                 | Some metadata => metadata !! "subtitle"
                 | None => None
                 end);
    of_status ms_artist;
    of_status ms_album_name;
    dev_app_display_name dev ].

(** The sources that are present, that is neither [None] nor empty, in
    their order. *)
Fixpoint present (sources : list (option string)) : list string :=
  match sources with
  | [] => []
  | x :: rest =>
      match truthy_value x with
      | Some s => s :: present rest
      | None => present rest
      end
  end.

(** The size of the step a volume command asks for. *)
Definition magnitude (c : command) : Q :=
  match c with
  | volume_up delta => delta
  | volume_down delta => delta
  end.

(** A stand-in for the two functions of [mpris_server.compat]. *)
Definition example_compat : Compat :=
  {| get_dbus_name := fun name => match name with Some n => n | None => "unnamed" end;
     enforce_dbus_length := fun s => s |}.

(** The cast-status icon, if any. *)
Definition cast_icon (dev : Chromecast) : option string :=
  match cast_status dev with
  | Some status => cs_icon_url status
  | None => None
  end.

(** One resolution attempt: the call of [create_adapters_and_server] that
    the loop makes during sweep [i]. *)
Definition attempt (net : nat -> Transport) (i : nat)
    (name host uuid : option string) (retry_wait : option Q)
  : option Server * list event :=
  create_adapters_and_server (net i) name host uuid retry_wait.

(** What [k] failed sweeps in a row leave in the trace, from sweep [i] on:
    after each attempt the failure is logged and the loop sleeps [w]. *)
Fixpoint failed_sweeps (k : nat) (net : nat -> Transport) (i : nat) (b : Base)
    (name host uuid : option string) (w : Q) (retry_wait : option Q)
  : list event :=
  match k with
  | O => []
  | S k' =>
      (snd (attempt net i name host uuid retry_wait)
       ++ [ev_logging_info (device_label b name host uuid) w; ev_sleep w]
       ++ failed_sweeps k' net (S i) b name host uuid w retry_wait)%list
  end.

Definition count_sleeps (trace : list event) : nat :=
  List.length (List.filter is_sleep trace).

(** A network on which no device ever answers. *)
Definition empty_network : nat -> Transport := fun _ _ _ => None.

(** A network on which the devices answer from sweep [k] on. *)
Definition network_up_from (k : nat) (dev : Chromecast) : nat -> Transport :=
  fun i _ _ => if (k <=? i)%nat then Some dev else None.

(** Two sets of daemon arguments, for two devices. *)
Definition tv_args : DaemonArgs.t :=
  {| DaemonArgs.name := Some "tv"; DaemonArgs.host := None; DaemonArgs.uuid := None;
     DaemonArgs.wait := None; DaemonArgs.retry_wait := Some 5%Q;
     DaemonArgs.icon := false; DaemonArgs.log_level := "warn" |}.

Definition kitchen_args : DaemonArgs.t :=
  {| DaemonArgs.name := Some "kitchen"; DaemonArgs.host := None; DaemonArgs.uuid := None;
     DaemonArgs.wait := Some 30%Q; DaemonArgs.retry_wait := Some 5%Q;
     DaemonArgs.icon := true; DaemonArgs.log_level := "warn" |}.

(** ** wrapper.py: playing a URI, the desktop entry *)

(** Commands the wrapper sends to the media controller and to the YouTube
    controller. *)
Inductive media_command :=
| mc_play_media (uri : string) (mimetype : option string)
| yt_launch
| yt_play_video (video_id : string)
| yt_add_to_queue (video_id : string).

Definition _launch_youtube : list media_command := [yt_launch].

Definition _play_youtube (yt_is_active : bool) (video_id : string)
  : list media_command :=
  ((if negb yt_is_active then _launch_youtube else []) ++ [yt_play_video video_id])%list.

(** [guess_type] is the function of [mimetypes], reduced to the type it
    guesses. *)
Definition open_uri (o : iteration_order) (guess_type : string -> option string)
    (yt_is_active : bool) (uri : string) : list media_command :=
  let video_id := get_video_id o uri in
  match truthy_value video_id with
  | Some video_id => _play_youtube yt_is_active video_id
  | None =>
      let mimetype := guess_type uri in
      [mc_play_media uri mimetype]
  end.

Definition add_track (o : iteration_order) (guess_type : string -> option string)
    (yt_is_active : bool) (uri : string) (after_track : string)
    (set_as_current : bool) : list media_command :=
  let video_id := get_video_id o uri in
  let trace :=
    match truthy_value video_id with
    | Some video_id => [yt_add_to_queue video_id]
    | None => []
    end in
  match truthy_value video_id with
  | Some video_id =>
      if set_as_current then (trace ++ [yt_play_video video_id])%list else trace
  | None =>
      if set_as_current
      then (trace ++ open_uri o guess_type yt_is_active uri)%list
      else trace
  end.

Definition NO_SUFFIX : string := EmptyString.

Definition with_suffix (p : Path) (suffix : string) : Path :=
  {| path_parent := path_parent p; path_stem := path_stem p; path_suffix := suffix |}.

(** [str(path)] *)
Definition path_str (p : Path) : string :=
  path_parent p ++ "/" ++ path_stem p ++ path_suffix p.

(** [get_desktop_entry] is memoised with [lru_cache]: [cache] is the entry
    the cache holds for this wrapper.  [create_desktop_file] and
    [NO_DESKTOP_FILE] are those of base.py. *)
Definition get_desktop_entry (create_desktop_file : bool -> option Path)
    (NO_DESKTOP_FILE : string) (self : DeviceWrapper) (cache : option string)
  : string * option string :=
  match cache with
  | Some entry => (entry, cache)
  | None =>
      let path := create_desktop_file (light_icon self) in
      let entry :=
        match path with
        | None => NO_DESKTOP_FILE
        | Some path => path_str (with_suffix path NO_SUFFIX)
        end in
      (entry, Some entry)
  end.

(** ** Notions the further properties are stated with *)

(** The requests [find_device] may make, in the order it makes them. *)
Definition candidates (name host uuid : option string) : list lookup :=
  let of_id (f : string -> lookup) (x : option string) : list lookup :=
    match truthy_value x with
    | Some s => [f s]
    | None => []
    end in
  match (of_id get_chromecast_via_host host
         ++ of_id get_chromecast_via_uuid uuid
         ++ of_id (fun n => get_chromecast (Some n)) name)%list with
  | [] => [get_chromecast None]
  | ls => ls
  end.

(** Asking one request after the other until one is answered. *)
Fixpoint first_found (net : Transport) (retry_wait : option Q) (ls : list lookup)
  : option Chromecast * list event :=
  match ls with
  | [] => (None, [])
  | l :: rest =>
      match net l retry_wait with
      | Some chromecast => (Some chromecast, [ev_lookup l retry_wait])
      | None =>
          let '(r, trace) := first_found net retry_wait rest in
          (r, ev_lookup l retry_wait :: trace)
      end
  end.

Definition is_logging_info (e : event) : bool :=
  match e with
  | ev_logging_info _ _ => true
  | _ => false
  end.

Definition is_publish (e : event) : bool :=
  match e with
  | ev_publish _ => true
  | _ => false
  end.

Definition is_loop (e : event) : bool :=
  match e with
  | ev_loop _ => true
  | _ => false
  end.

Definition count (p : event -> bool) (trace : list event) : nat :=
  List.length (List.filter p trace).

(** The commands that start playback. *)
Definition is_play (c : media_command) : bool :=
  match c with
  | mc_play_media _ _ => true
  | yt_play_video _ => true
  | _ => false
  end.

(** How many times a list of commands starts playback. *)
Definition plays (trace : list media_command) : nat :=
  List.length (List.filter is_play trace).

(** A device that plays a track with all its titles. *)
Definition track_device : Chromecast :=
  {| dev_status := Some {| cs_volume_level := 1 # 2; cs_volume_muted := false;
                           cs_icon_url := Some "http://tv/icon.png" |};
     dev_media_controller :=
       {| mc_status := Some {| ms_duration := Some 180%Q;
                               ms_current_time := Some 12%Q;
                               ms_adjusted_current_time := Some (25 # 2)%Q;
                               ms_artist := Some "Artist";
                               ms_album_name := Some "Album";
                               ms_media_metadata := Some {[ "subtitle" := "Subtitle" ]};
                               ms_content_id := Some "abc123";
                               ms_track := Some 4%Z |};
          mc_title := Some "Title"; mc_thumbnail := None |};
     dev_app_display_name := Some "YouTube"; dev_name := Some "TV" |}.

(** * Properties *)

(** ** Strings *)

Lemma append_cons (c : ascii) (a b : string) : String c a ++ b = String c (a ++ b).
Proof. reflexivity. Qed.

Lemma append_assoc (a b c : string) : (a ++ b) ++ c = a ++ b ++ c.
Proof.
  induction a as [|x a IH]; [reflexivity|].
  rewrite !append_cons, IH. reflexivity.
Qed.

Lemma length_append (a b : string) :
  String.length (a ++ b) = (String.length a + String.length b)%nat.
Proof.
  induction a as [|x a IH]; [reflexivity|].
  rewrite append_cons. simpl. rewrite IH. reflexivity.
Qed.

Lemma strip_prefix_spec (p s t : string) :
  pystr.strip_prefix p s = Some t <-> s = p ++ t.
Proof.
  revert s. induction p as [|a p IH]; intros s; simpl.
  - split; [intros [= ->]; reflexivity | intros ->; reflexivity].
  - destruct s as [|c s]; rewrite ?append_cons.
    + split; [discriminate | discriminate].
    + destruct (Ascii.eqb_spec a c) as [->|Hne].
      * rewrite IH. split; [intros ->; reflexivity | intros [= ->]; reflexivity].
      * split; [discriminate | intros [= -> _]; contradiction].
Qed.

Lemma startswith_append (p t : string) : pystr.startswith p (p ++ t) = true.
Proof.
  unfold pystr.startswith.
  destruct (pystr.strip_prefix p (p ++ t)) eqn:E; [reflexivity|].
  assert (H : pystr.strip_prefix p (p ++ t) = Some t) by (apply strip_prefix_spec; reflexivity).
  congruence.
Qed.

Lemma startswith_inv (p s : string) :
  pystr.startswith p s = true -> exists t, s = p ++ t.
Proof.
  unfold pystr.startswith.
  destruct (pystr.strip_prefix p s) as [t|] eqn:E; [|discriminate].
  intros _. exists t. apply strip_prefix_spec, E.
Qed.

Lemma partition_Some (sep s a b : string) :
  pystr.partition sep s = Some (a, b) -> s = a ++ sep ++ b.
Proof.
  revert a. induction s as [|c s IH]; intros a; simpl.
  - destruct (pystr.strip_prefix sep EmptyString) as [rest|] eqn:E; [|discriminate].
    intros [= <- <-]. apply strip_prefix_spec in E. exact E.
  - destruct (pystr.strip_prefix sep (String c s)) as [rest|] eqn:E.
    + intros [= <- <-]. apply strip_prefix_spec in E. exact E.
    + destruct (pystr.partition sep s) as [[a' b']|]; [|discriminate].
      intros [= <- <-]. rewrite append_cons. f_equal. apply IH. reflexivity.
Qed.

Lemma partition_None (sep s : string) :
  pystr.partition sep s = None <-> pystr.contains sep s = false.
Proof.
  induction s as [|c s IH]; simpl; unfold pystr.startswith.
  - destruct (pystr.strip_prefix sep EmptyString); simpl; split; congruence.
  - destruct (pystr.strip_prefix sep (String c s)); simpl.
    + split; congruence.
    + rewrite <- IH. destruct (pystr.partition sep s) as [[? ?]|]; split; congruence.
Qed.

(** Splitting at a separator that is not empty. *)
Section split_facts.

Variable sep : string.
Hypothesis sep_not_empty : sep <> EmptyString.

Lemma contains_empty : pystr.contains sep EmptyString = false.
Proof.
  destruct sep; [contradiction|]. reflexivity.
Qed.

(** The text before the first occurrence holds no occurrence. *)
Lemma partition_before (s a b : string) :
  pystr.partition sep s = Some (a, b) -> pystr.contains sep a = false.
Proof.
  revert a. induction s as [|c s IH]; intros a; simpl.
  - destruct (pystr.strip_prefix sep EmptyString) as [rest|]; [|discriminate].
    intros [= <- <-]. apply contains_empty.
  - destruct (pystr.strip_prefix sep (String c s)) as [rest|] eqn:E.
    + intros [= <- <-]. apply contains_empty.
    + destruct (pystr.partition sep s) as [[a' b']|] eqn:P; [|discriminate].
      intros [= <- <-]. simpl. rewrite (IH a' eq_refl), orb_false_r.
      destruct (pystr.startswith sep (String c a')) eqn:W; [|reflexivity].
      apply startswith_inv in W. destruct W as [t Ht].
      apply partition_Some in P.
      assert (F : pystr.strip_prefix sep (String c s) = Some (t ++ sep ++ b')).
      { apply strip_prefix_spec. rewrite P, <- append_cons, Ht, append_assoc. reflexivity. }
      congruence.
Qed.

Lemma split_fuel_not_nil (n : nat) (s : string) : pystr.split_fuel n sep s <> [].
Proof.
  destruct n; simpl; [discriminate|].
  destruct (pystr.partition sep s) as [[? ?]|]; discriminate.
Qed.

Lemma last_cons_not_nil (a d : string) (l : list string) :
  l <> [] -> List.last (a :: l) d = List.last l d.
Proof. destruct l; [contradiction | reflexivity]. Qed.

(** The last piece of a split is what follows the last separator. *)
Lemma split_fuel_last (n : nat) :
  forall s : string,
    (String.length s < n)%nat ->
    after_last sep s (pystr.unpack_last (pystr.split_fuel n sep s)).
Proof.
  induction n as [|n IH]; intros s Hlen; [lia|].
  simpl. destruct (pystr.partition sep s) as [[a b]|] eqn:P.
  - unfold pystr.unpack_last.
    rewrite last_cons_not_nil by apply split_fuel_not_nil.
    pose proof (partition_Some _ _ _ _ P) as Hs.
    assert (Hb : (String.length b < n)%nat).
    { rewrite Hs, !length_append in Hlen.
      assert (0 < String.length sep)%nat
        by (destruct sep; [contradiction | simpl; lia]).
      lia. }
    destruct (IH b Hb) as [[pre [Hpre Hno]]|[Hno Hr]]; left.
    + exists (a ++ sep ++ pre). split; [|exact Hno].
      rewrite Hs. unfold pystr.unpack_last in Hpre. rewrite Hpre at 1.
      rewrite !append_assoc. reflexivity.
    + exists a. unfold pystr.unpack_last in Hr. rewrite Hr. split; [exact Hs | exact Hno].
  - right. split; [apply partition_None, P | reflexivity].
Qed.

Lemma split_last (s : string) :
  after_last sep s (pystr.unpack_last (pystr.split sep s)).
Proof. apply split_fuel_last. lia. Qed.

(** The first piece of a split is what precedes the first separator. *)
Lemma split_first (s : string) :
  before_first sep s (pystr.unpack_first (pystr.split sep s)).
Proof.
  unfold pystr.split. simpl.
  destruct (pystr.partition sep s) as [[a b]|] eqn:P; simpl.
  - left. exists b. split; [apply partition_Some, P | eapply partition_before; eauto].
  - right. split; [apply partition_None, P | reflexivity].
Qed.

End split_facts.

Lemma strip_prefix_lower (p s t : string) :
  pystr.strip_prefix p s = Some t ->
  pystr.strip_prefix (pystr.lower p) (pystr.lower s) = Some (pystr.lower t).
Proof.
  revert s. induction p as [|a p IH]; intros s; simpl.
  - intros [= ->]. reflexivity.
  - destruct s as [|c s]; [discriminate|]. simpl.
    destruct (Ascii.eqb_spec a c) as [->|]; [|discriminate].
    rewrite Ascii.eqb_refl. apply IH.
Qed.

(** A fragment found in a URI is found, lower-cased, in the lower-cased URI. *)
Lemma contains_lower (p s : string) :
  pystr.contains p s = true -> pystr.contains (pystr.lower p) (pystr.lower s) = true.
Proof.
  induction s as [|c s IH]; simpl; unfold pystr.startswith.
  - destruct (pystr.strip_prefix p EmptyString) eqn:E; [|discriminate].
    intros _. apply strip_prefix_lower in E. simpl in E. rewrite E. reflexivity.
  - destruct (pystr.strip_prefix p (String c s)) eqn:E.
    + intros _. apply strip_prefix_lower in E. simpl in E. rewrite E. reflexivity.
    + simpl. intros H. rewrite (IH H). apply orb_true_r.
Qed.


(** ** The content identifier *)

Lemma is_youtube_order (o : iteration_order) (uri : string) :
  is_youtube o uri = is_youtube AsWritten uri.
Proof.
  destruct o; [reflexivity|]. unfold is_youtube. simpl.
  rewrite !orb_false_r. apply orb_comm.
Qed.

Lemma truncate_at_amp (v : string) :
  exists id,
    before_first "&" v id /\
    (if pystr.truthy v && pystr.contains "&" v
     then Some (pystr.unpack_first (pystr.split "&" v))
     else Some v) = Some id.
Proof.
  destruct (pystr.truthy v && pystr.contains "&" v) eqn:E.
  - eexists. split; [apply split_first; discriminate | reflexivity].
  - exists v. split; [|reflexivity]. right. split; [|reflexivity].
    apply andb_false_iff in E. destruct E as [E|E]; [|exact E].
    destruct v; [reflexivity | discriminate].
Qed.

(** A URI that holds one of the host fragments, in whatever case the
    fragment is written, is provider content. *)
Lemma is_youtube_of_fragment (o : iteration_order) (fragment uri : string) :
  In fragment (YOUTUBE_URLS o) ->
  pystr.contains fragment uri = true ->
  is_youtube o uri = true.
Proof.
  intros Hin Hc. apply contains_lower in Hc.
  rewrite is_youtube_order. unfold is_youtube. simpl.
  destruct o; simpl in Hin; destruct Hin as [<-|[<-|[]]];
    try change (pystr.lower "youtube.com/") with "youtube.com/" in Hc;
    try change (pystr.lower "youtu.be/") with "youtu.be/" in Hc;
    rewrite Hc; rewrite ?orb_true_r; reflexivity.
Qed.

(** The two rules of [get_video_id], for whichever fragment each of the
    names [YT_LONG] and [YT_SHORT] is bound to. *)
Lemma get_video_id_rules (o : iteration_order) (uri : string) :
  (pystr.contains (YT_LONG o) uri = true ->
   exists seg id,
     after_last "v=" uri seg /\ before_first "&" seg id /\
     get_video_id o uri = Some id) /\
  (pystr.contains (YT_LONG o) uri = false ->
   pystr.contains (YT_SHORT o) uri = true ->
   exists seg id,
     after_last "/" uri seg /\ before_first "&" seg id /\
     get_video_id o uri = Some id).
Proof.
  split.
  - intros Hlong.
    assert (Hyt : is_youtube o uri = true).
    { apply (is_youtube_of_fragment o (YT_LONG o)); [|exact Hlong].
      destruct o; simpl; auto. }
    destruct (truncate_at_amp (pystr.unpack_last (pystr.split "v=" uri)))
      as [id [Hid Heq]].
    eexists. exists id. split; [apply split_last; discriminate|].
    split; [exact Hid|].
    unfold get_video_id. rewrite Hyt, Hlong. exact Heq.
  - intros Hlong Hshort.
    assert (Hyt : is_youtube o uri = true).
    { apply (is_youtube_of_fragment o (YT_SHORT o)); [|exact Hshort].
      destruct o; simpl; auto. }
    destruct (truncate_at_amp (pystr.unpack_last (pystr.split "/" uri)))
      as [id [Hid Heq]].
    eexists. exists id. split; [apply split_last; discriminate|].
    split; [exact Hid|].
    unfold get_video_id. rewrite Hyt, Hlong, Hshort. exact Heq.
Qed.

(** C3, as the source has it.  Provided that [YT_LONG] is bound to
    [youtube.com/] and [YT_SHORT] to [youtu.be/], the order in which the
    source lists the two fragments (the source takes the binding from the
    iteration of a set, which may give the other one; nothing is stated
    for that case): a URI that contains [youtube.com/] yields what follows
    its last [v=] (the URI whole when it has none); otherwise a URI that
    contains [youtu.be/] yields what follows its last [/]; either value is
    cut at its first [&] and at nothing else; so
    [https://youtu.be/abc123?t=5] yields [abc123?t=5] and
    [https://www.youtube.com/watch?v=abc123&list=xyz] yields [abc123].
    Under either binding, a URI whose lower-cased form contains neither
    fragment is not provider content and yields nothing. *)
Theorem get_video_id_spec (o : iteration_order) (uri : string) :
  (YT_LONG o = "youtube.com/" ->
   YT_SHORT o = "youtu.be/" ->
   (pystr.contains "youtube.com/" uri = true ->
    exists seg id,
      after_last "v=" uri seg /\ before_first "&" seg id /\
      get_video_id o uri = Some id) /\
   (pystr.contains "youtube.com/" uri = false ->
    pystr.contains "youtu.be/" uri = true ->
    exists seg id,
      after_last "/" uri seg /\ before_first "&" seg id /\
      get_video_id o uri = Some id) /\
   get_video_id o "https://youtu.be/abc123?t=5" = Some "abc123?t=5" /\
   get_video_id o "https://www.youtube.com/watch?v=abc123&list=xyz"
   = Some "abc123") /\
  (pystr.contains "youtube.com/" (pystr.lower uri) = false ->
   pystr.contains "youtu.be/" (pystr.lower uri) = false ->
   is_youtube o uri = false /\ get_video_id o uri = None).
Proof.
  split.
  - intros Hl Hs. destruct (get_video_id_rules o uri) as [R1 R2].
    rewrite Hl in R1, R2. rewrite Hs in R2.
    split; [exact R1|]. split; [exact R2|].
    destruct o; [split; reflexivity | discriminate Hl].
  - intros Hlong Hshort.
    assert (Hyt : is_youtube o uri = false).
    { rewrite is_youtube_order. unfold is_youtube. simpl.
      rewrite Hlong, Hshort. reflexivity. }
    split; [exact Hyt|]. unfold get_video_id. rewrite Hyt. reflexivity.
Qed.

Lemma get_video_id_spec_witness :
  YT_LONG AsWritten = "youtube.com/" /\
  YT_SHORT AsWritten = "youtu.be/" /\
  pystr.contains "youtube.com/" "https://www.youtube.com/watch?v=abc&pv=1" = true /\
  (exists seg id,
     after_last "v=" "https://www.youtube.com/watch?v=abc&pv=1" seg /\
     before_first "&" seg id /\
     get_video_id AsWritten "https://www.youtube.com/watch?v=abc&pv=1" = Some id) /\
  get_video_id AsWritten "https://youtu.be/abc123?t=5" = Some "abc123?t=5" /\
  get_video_id AsWritten "https://www.youtube.com/watch?v=abc123&list=xyz"
  = Some "abc123".
Proof.
  assert (Hl : YT_LONG AsWritten = "youtube.com/") by reflexivity.
  assert (Hs : YT_SHORT AsWritten = "youtu.be/") by reflexivity.
  assert (Hc : pystr.contains "youtube.com/"
                 "https://www.youtube.com/watch?v=abc&pv=1" = true) by reflexivity.
  destruct (proj1 (get_video_id_spec AsWritten
                     "https://www.youtube.com/watch?v=abc&pv=1") Hl Hs)
    as [R1 [_ [E1 E2]]].
  split; [exact Hl|]. split; [exact Hs|]. split; [exact Hc|].
  split; [exact (R1 Hc)|]. split; [exact E1 | exact E2].
Defined.

(** C3 as the specification words it fails on its own example: the query
    of a short link starts with [?], which is not a cut point, so the
    identifier of [https://youtu.be/abc123?t=5] is not [abc123], whichever
    way the two host fragments are bound. *)
Lemma get_video_id_short_link_keeps_query :
  get_video_id AsWritten "https://youtu.be/abc123?t=5" = Some "abc123?t=5" /\
  get_video_id Reversed "https://youtu.be/abc123?t=5"
  = Some "https://youtu.be/abc123?t=5" /\
  get_video_id AsWritten "https://youtu.be/abc123?t=5" <> Some "abc123" /\
  get_video_id Reversed "https://youtu.be/abc123?t=5" <> Some "abc123".
Proof. repeat split; discriminate. Qed.

(** With the two names bound the other way round, which the iteration of
    the set [YOUTUBE_URLS] may give, the long form is cut at its last [/]
    and the short form is returned whole: the identifiers differ from
    those of the binding the source lists. *)
Example get_video_id_other_binding :
  get_video_id Reversed "https://www.youtube.com/watch?v=abc123&list=xyz"
  = Some "watch?v=abc123" /\
  get_video_id Reversed "https://youtu.be/abc123"
  = Some "https://youtu.be/abc123" /\
  get_video_id AsWritten "https://youtu.be/abc123" = Some "abc123".
Proof. repeat split. Qed.

(** What follows the last [v=] is not what follows the first one. *)
Example get_video_id_last_marker :
  get_video_id AsWritten "https://www.youtube.com/watch?v=abc&pv=1" = Some "1".
Proof. reflexivity. Qed.

(** A URI that matches only up to case is provider content without an
    identifier. *)
Example get_video_id_case :
  is_youtube AsWritten "https://YouTube.com/watch?v=abc123" = true /\
  get_video_id AsWritten "https://YouTube.com/watch?v=abc123" = None.
Proof. split; reflexivity. Qed.

(** ** The duration tracker *)

(** An explicit duration is a duration of the media status that is not
    zero. *)
Lemma explicit_duration_spec (dev : Chromecast) (duration : Q) :
  explicit_duration dev = Some duration <->
  exists status,
    media_status dev = Some status /\
    ms_duration status = Some duration /\
    ~ (duration == 0)%Q.
Proof.
  unfold explicit_duration, truthy_Q. split.
  - destruct (media_status dev) as [status|]; [|discriminate].
    destruct (ms_duration status) as [d|] eqn:D; [|discriminate].
    destruct (Qeq_bool d 0) eqn:E; simpl; [discriminate|].
    intros [= <-]. exists status.
    split; [reflexivity|]. split; [exact D|].
    intros H. apply Qeq_bool_iff in H. congruence.
  - intros [status [-> [-> H]]].
    destruct (Qeq_bool duration 0) eqn:E; simpl; [|reflexivity].
    apply Qeq_bool_iff in E. contradiction.
Qed.

Lemma longest_exceeds_spec (longest : option Z) (current : Z) :
  longest_exceeds longest current = true <-> watermark_exceeds longest current.
Proof.
  unfold longest_exceeds, watermark_exceeds, truthy_Z.
  destruct longest as [l|].
  - rewrite andb_true_iff, negb_true_iff, Z.eqb_neq, Z.ltb_lt. split.
    + intros [Hl Hc]. exists l. auto.
    + intros [l' [[= <-] H]]. exact H.
  - split; [discriminate | intros [l [[=] _]]].
Qed.




Lemma get_duration_keeps_nonzero (b : Base) (dev : Chromecast) (self : DeviceWrapper) :
  _longest_duration self <> Some 0%Z ->
  _longest_duration (snd (get_duration b dev self)) <> Some 0%Z.
Proof.
  intros H. unfold get_duration.
  destruct (explicit_duration dev); [exact H|].
  destruct (longest_exceeds _ _); [exact H|].
  destruct (truthy_Z (get_current_position dev)) eqn:E; [|exact H].
  simpl. unfold truthy_Z in E. apply negb_true_iff, Z.eqb_neq in E. congruence.
Qed.

(** One call never lowers the watermark, unless the watermark is the
    number zero and the position is negative. *)
Lemma get_duration_step (b : Base) (dev : Chromecast) (self : DeviceWrapper) :
  _longest_duration self <> Some 0%Z \/ (0 <= get_current_position dev)%Z ->
  wm_le (_longest_duration self) (_longest_duration (snd (get_duration b dev self))).
Proof.
  intros H. unfold get_duration.
  assert (R : forall w, wm_le w w) by (intros [z|]; simpl; [lia | exact I]).
  destruct (explicit_duration dev); [apply R|].
  destruct (longest_exceeds _ _) eqn:L; [apply R|].
  destruct (truthy_Z (get_current_position dev)) eqn:E; [|apply R].
  simpl. destruct (_longest_duration self) as [l|] eqn:W; simpl; [|exact I].
  unfold longest_exceeds, truthy_Z in L.
  apply andb_false_iff in L. destruct L as [L|L].
  - apply negb_false_iff, Z.eqb_eq in L. subst l.
    destruct H as [H|H]; [congruence | exact H].
  - apply Z.ltb_ge in L. exact L.
Qed.

Lemma reachable_nonzero (b : Base) (self : DeviceWrapper) :
  NO_DURATION b <> Some 0%Z -> reachable b self ->
  _longest_duration self <> Some 0%Z.
Proof.
  intros Hb. induction 1 as [|dev self _ IH|dev self _ IH|lighter self _ IH].
  - exact Hb.
  - apply get_duration_keeps_nonzero, IH.
  - unfold on_new_status. destruct (negb _); [discriminate | exact IH].
  - exact IH.
Qed.

Lemma watermarks_sorted (b : Base) (devs : list Chromecast) :
  forall self,
    _longest_duration self <> Some 0%Z ->
    Sorted wm_le (watermarks b devs self).
Proof.
  induction devs as [|dev devs IH]; intros self H; simpl.
  - repeat constructor.
  - constructor.
    + apply IH, get_duration_keeps_nonzero, H.
    + destruct devs; simpl; constructor; apply get_duration_step; left; exact H.
Qed.

(** With positions that are never negative the same holds from any state. *)
Lemma watermarks_sorted_nonneg (b : Base) (devs : list Chromecast) :
  Forall (fun dev => (0 <= get_current_position dev)%Z) devs ->
  forall self, Sorted wm_le (watermarks b devs self).
Proof.
  induction 1 as [|dev devs Hd _ IH]; intros self; simpl.
  - repeat constructor.
  - constructor; [apply IH|].
    destruct devs; simpl; constructor; apply get_duration_step; right; exact Hd.
Qed.

(** C2.  Along any calls of [get_duration] made on a wrapper, with no
    status-change hook in between, the watermark never decreases (the
    empty watermark counting as the least), given that the sentinel of
    base.py is not the number zero, as the specification has it, or else
    that the device reports no negative position; and when
    [on_new_status] fires while the device has no current time (at the
    rounded resolution) the watermark is empty right after it, so the next
    read starts from the empty watermark. *)
Theorem watermark_monotone (b : Base) (devs : list Chromecast) (self : DeviceWrapper) :
  NO_DURATION b <> Some 0%Z \/
  Forall (fun dev => (0 <= get_current_position dev)%Z) devs ->
  reachable b self ->
  Sorted wm_le (watermarks b devs self) /\
  (forall dev self',
     has_current_time dev = false ->
     _longest_duration (on_new_status dev self') = None /\
     forall dev',
       get_duration b dev' (on_new_status dev self')
       = get_duration b dev' (set_longest self' None)).
Proof.
  intros Hb Hr. split.
  - destruct Hb as [Hb|Hpos].
    + apply watermarks_sorted. apply (reachable_nonzero b); assumption.
    + apply watermarks_sorted_nonneg, Hpos.
  - intros dev self' H. unfold on_new_status. rewrite H. simpl.
    split; reflexivity.
Qed.

Lemma watermark_monotone_witness :
  NO_DURATION example_base <> Some 0%Z /\
  reachable example_base (DeviceWrapper_init example_base) /\
  Sorted wm_le
    (watermarks example_base
       [playing_device 5; playing_device 3; silent_device; playing_device 8]
       (DeviceWrapper_init example_base)).
Proof.
  assert (H1 : NO_DURATION example_base <> Some 0%Z) by discriminate.
  assert (H2 : reachable example_base (DeviceWrapper_init example_base))
    by constructor.
  split; [exact H1 | split; [exact H2 |]].
  exact (proj1 (watermark_monotone example_base
    [playing_device 5; playing_device 3; silent_device; playing_device 8]
    (DeviceWrapper_init example_base) (or_introl H1) H2)).
Defined.

Example watermarks_example :
  watermarks example_base
    [playing_device 5; playing_device 3; silent_device; playing_device 8]
    (DeviceWrapper_init example_base)
  = [None; Some 5000000%Z; Some 5000000%Z; Some 5000000%Z; Some 8000000%Z].
Proof. reflexivity. Qed.

(** A current time of four hundredths of a second is none at the rounded
    resolution: the hook clears the watermark. *)
Example on_new_status_rounds :
  has_current_time (playing_device (4 # 100)) = false /\
  has_current_time (playing_device (6 # 100)) = true /\
  _longest_duration
    (on_new_status (playing_device (4 # 100))
       {| _longest_duration := Some 5000000%Z; light_icon := false |}) = None.
Proof. repeat split. Qed.

(** ** The title aggregator *)

Lemma append_if_present (x : option string) (l : list string) :
  append_if x l = (l ++ present [x])%list.
Proof.
  unfold append_if. simpl. unfold truthy_value.
  destruct x as [s|]; [|rewrite app_nil_r; reflexivity].
  destruct (pystr.truthy s); [reflexivity | rewrite app_nil_r; reflexivity].
Qed.

Lemma present_app (l1 l2 : list (option string)) :
  present (l1 ++ l2) = (present l1 ++ present l2)%list.
Proof.
  induction l1 as [|x l1 IH]; [reflexivity|].
  simpl. destruct (truthy_value x); simpl; rewrite IH; reflexivity.
Qed.

Lemma present_nonempty (sources : list (option string)) (s : string) :
  In s (present sources) -> s <> EmptyString.
Proof.
  induction sources as [|x rest IH]; simpl; [contradiction|].
  destruct x as [y|]; simpl; [|exact IH].
  destruct y as [|c y]; simpl; [exact IH|].
  intros [<-|H]; [discriminate | apply IH, H].
Qed.

Lemma In_firstn_In (n : nat) (l : list string) (s : string) :
  In s (firstn n l) -> In s l.
Proof.
  revert l. induction n as [|n IH]; intros [|x l]; simpl; try contradiction.
  intros [->|H]; [left; reflexivity | right; apply IH, H].
Qed.

Lemma get_subtitle_lookup (dev : Chromecast) :
  get_subtitle dev = nth 1 (title_sources dev) None.
Proof.
  unfold get_subtitle, title_sources. simpl.
  destruct (media_status dev) as [status|]; [|reflexivity].
  destruct (ms_media_metadata status) as [metadata|]; [|reflexivity].
  destruct (metadata !! "subtitle") as [s|] eqn:E.
  - assert (Hne : metadata <> ∅).
    { intros ->. rewrite lookup_empty in E. discriminate. }
    rewrite (bool_decide_eq_false_2 _ Hne).
    rewrite bool_decide_eq_true_2 by (exists s; reflexivity).
    reflexivity.
  - rewrite (bool_decide_eq_false_2 (is_Some None)) by (intros [? [=]]).
    rewrite andb_false_r. reflexivity.
Qed.

(** The list that [titles] builds, before it is cut and packed. *)
Lemma titles_list (dev : Chromecast) :
  titles dev = Titles_new (firstn MAX_TITLES (present (title_sources dev))).
Proof.
  unfold titles. f_equal. f_equal.
  rewrite get_subtitle_lookup. unfold title_sources. simpl nth.
  destruct (media_status dev) as [status|];
    rewrite !append_if_present; cbn [present app];
    change (truthy_value None) with (@None string); cbn [present app];
    repeat match goal with
           | |- context [truthy_value ?x] =>
               destruct (truthy_value x); cbn [present app]
           end; reflexivity.
Qed.

(** C4.  [titles] never raises; its tuple holds the first three of the
    sources that are present, taken in the order media title, subtitle of
    the media metadata, artist, album name, application name: at most
    three entries, packed from the left with no gap, no entry empty, and
    [None] in the positions left over. *)
Theorem titles_spec (dev : Chromecast) :
  let packed := firstn MAX_TITLES (present (title_sources dev)) in
  exists t : Titles,
    titles dev = Ok t /\
    title t = packed !! 0%nat /\
    artist t = packed !! 1%nat /\
    album t = packed !! 2%nat /\
    (List.length packed <= 3)%nat /\
    (title t = None -> artist t = None) /\
    (artist t = None -> album t = None) /\
    (forall s, In (Some s) [title t; artist t; album t] -> s <> EmptyString).
Proof.
  intros packed. rewrite titles_list. fold packed.
  assert (Hlen : (List.length packed <= 3)%nat) by apply firstn_le_length.
  assert (Hne : forall s, In s packed -> s <> EmptyString).
  { intros s Hs. apply (present_nonempty (title_sources dev)).
    eapply In_firstn_In; eauto. }
  destruct packed as [|a [|a' [|a'' [|? ?]]]]; simpl in Hlen; try lia;
    eexists; (split; [reflexivity|]); simpl;
    repeat split; try discriminate; try lia;
    intros s Hs; apply Hne; simpl in *;
    repeat match goal with
           | H : _ \/ _ |- _ => destruct H
           | H : Some _ = Some _ |- _ => injection H as <-
           | H : None = Some _ |- _ => discriminate H
           | H : False |- _ => contradiction
           end; auto.
Qed.

Lemma titles_spec_witness :
  exists t : Titles,
    titles idle_device = Ok t /\
    title t = Some "Backdrop" /\ artist t = None /\ album t = None.
Proof.
  destruct (titles_spec idle_device) as [t [Ht [H1 [H2 [H3 _]]]]].
  exists t. repeat split; assumption.
Defined.

(** ** Volume *)

Lemma Qltb_lt (x y : Q) : Qltb x y = true <-> (x < y)%Q.
Proof.
  unfold Qltb. rewrite negb_true_iff. split.
  - intros H. apply Qnot_le_lt. intros Hle.
    apply Qle_bool_iff in Hle. congruence.
  - intros H. destruct (Qle_bool y x) eqn:E; [|reflexivity].
    apply Qle_bool_iff in E. apply Qlt_not_le in H. contradiction.
Qed.

Lemma Qltb_ge (x y : Q) : Qltb x y = false <-> (y <= x)%Q.
Proof.
  unfold Qltb. rewrite negb_false_iff. apply Qle_bool_iff.
Qed.

(** C5.  With a cast status at volume [c], [set_volume v] sends one
    volume-up command (of [v - c]) when [v] is above [c], one volume-down
    command (of [|v - c|]) when [v] is below [c], and nothing when the two
    are equal; whatever it sends has a magnitude above zero, and setting
    the volume that [get_volume] returns sends nothing. *)
Theorem set_volume_spec (dev : Chromecast) (status : CastStatus) (v : Q) :
  cast_status dev = Some status ->
  let c := cs_volume_level status in
  ((c < v)%Q -> set_volume dev v = (Ok tt, [volume_up (v - c)])) /\
  ((v < c)%Q -> set_volume dev v = (Ok tt, [volume_down (Qabs (v - c))])) /\
  ((v == c)%Q -> set_volume dev v = (Ok tt, [])) /\
  (forall cmd, In cmd (snd (set_volume dev v)) -> (0 < magnitude cmd)%Q) /\
  (forall curr, get_volume dev = Some curr -> set_volume dev curr = (Ok tt, [])).
Proof.
  intros Hs c. unfold set_volume, get_volume. rewrite Hs. fold c.
  change (inject_Z NO_DELTA) with 0%Q.
  split; [|split; [|split; [|split]]].
  - intros H. assert (L : Qltb 0 (v - c) = true) by (apply Qltb_lt; lra).
    rewrite L. reflexivity.
  - intros H.
    assert (L1 : Qltb 0 (v - c) = false) by (apply Qltb_ge; lra).
    assert (L2 : Qltb (v - c) 0 = true) by (apply Qltb_lt; lra).
    rewrite L1, L2. reflexivity.
  - intros H.
    assert (L1 : Qltb 0 (v - c) = false) by (apply Qltb_ge; lra).
    assert (L2 : Qltb (v - c) 0 = false) by (apply Qltb_ge; lra).
    rewrite L1, L2. reflexivity.
  - intros cmd.
    destruct (Qltb 0 (v - c)) eqn:L1; [|destruct (Qltb (v - c) 0) eqn:L2]; simpl.
    + intros [<-|[]]. simpl. apply Qltb_lt, L1.
    + intros [<-|[]]. simpl. apply Qltb_lt in L2.
      assert (A : (Qabs (v - c) == - (v - c))%Q) by (apply Qabs_neg; lra).
      rewrite A. lra.
    + contradiction.
  - intros curr [= <-].
    assert (L1 : Qltb 0 (c - c) = false) by (apply Qltb_ge; lra).
    assert (L2 : Qltb (c - c) 0 = false) by (apply Qltb_ge; lra).
    rewrite L1, L2. reflexivity.
Qed.

Lemma set_volume_spec_witness :
  cast_status idle_device
  = Some {| cs_volume_level := 1 # 2; cs_volume_muted := false; cs_icon_url := None |} /\
  set_volume idle_device (3 # 4) = (Ok tt, [volume_up ((3 # 4) - (1 # 2))]) /\
  set_volume idle_device (1 # 2) = (Ok tt, []).
Proof.
  assert (H : cast_status idle_device
              = Some {| cs_volume_level := 1 # 2; cs_volume_muted := false;
                        cs_icon_url := None |}) by reflexivity.
  split; [exact H|]. split.
  - apply (proj1 (set_volume_spec idle_device _ (3 # 4) H)). reflexivity.
  - apply (proj2 (proj2 (proj2 (proj2 (set_volume_spec idle_device _ (3 # 4) H))))).
    reflexivity.
Defined.

(** C10.  Without a cast status [get_volume] returns [None], not a zero
    volume, and every [set_volume] fails with a [TypeError] in the
    subtraction, having sent nothing; [set_volume] succeeds exactly when
    there is a cast status. *)
Theorem set_volume_needs_cast_status (dev : Chromecast) :
  (cast_status dev = None ->
   get_volume dev = None /\
   forall v, set_volume dev v = (Raise TypeError, [])) /\
  (forall v,
     fst (set_volume dev v) = Ok tt <-> exists status, cast_status dev = Some status).
Proof.
  unfold set_volume, get_volume. split.
  - intros ->. split; reflexivity.
  - intros v. destruct (cast_status dev) as [status|]; simpl.
    + split; [intros _; exists status; reflexivity | intros _].
      destruct (Qltb _ _); [reflexivity|]. destruct (Qltb _ _); reflexivity.
    + split; [discriminate | intros [status [=]]].
Qed.

Lemma set_volume_needs_cast_status_witness :
  cast_status silent_device = None /\
  get_volume silent_device = None /\
  set_volume silent_device (1 # 2) = (Raise TypeError, []).
Proof.
  assert (H : cast_status silent_device = None) by reflexivity.
  destruct (proj1 (set_volume_needs_cast_status silent_device) H) as [H1 H2].
  split; [exact H|]. split; [exact H1 | apply H2].
Defined.

(** ** Metadata *)

Lemma title_sources_no_media (dev : Chromecast) :
  media_status dev = None ->
  present (title_sources dev)
  = present [mc_title (media_controller dev); dev_app_display_name dev].
Proof.
  intros H. unfold title_sources. rewrite H. reflexivity.
Qed.

Lemma get_duration_no_media (b : Base) (dev : Chromecast) (self : DeviceWrapper) :
  media_status dev = None ->
  _longest_duration self = NO_DURATION b \/
  ~ watermark_exceeds (_longest_duration self) 0 ->
  get_duration b dev self = (pyvalue_of_int (NO_DURATION b), self).
Proof.
  intros Hm Hw. unfold get_duration, explicit_duration, get_current_position.
  rewrite Hm. change BEGINNING with 0%Z.
  destruct (longest_exceeds (_longest_duration self) 0) eqn:L; [|reflexivity].
  destruct Hw as [Hw|Hw].
  - rewrite Hw. reflexivity.
  - apply longest_exceeds_spec in L. contradiction.
Qed.

Lemma get_art_url_default (b : Base) (dev : Chromecast) (self : DeviceWrapper) :
  truthy_value (mc_thumbnail (media_controller dev)) = None ->
  truthy_value (cast_icon dev) = None ->
  light_icon self = false ->
  get_art_url b dev self = DEFAULT_THUMB b.
Proof.
  intros Ht Hi Hl. unfold get_art_url. rewrite Ht.
  fold (cast_icon dev). rewrite Hi, Hl. reflexivity.
Qed.

(** C9, as the source has it.  With an empty media status [metadata]
    raises nothing, leaves the wrapper as it was and returns a dictionary
    with exactly the keys of the schema, in which: the length is the
    sentinel when the watermark is still the sentinel, or is empty or not
    above zero; the art URL is the default asset when there is no
    thumbnail, no cast-status icon and the light-icon flag is unset; the
    album is empty; the title is the first, and the artists are the rest,
    of those of the media controller's title and the application's display
    name that are present; so title and artists are empty too when the
    device has neither of these two. *)
Theorem metadata_no_media_status (b : Base) (c : Compat) (o : iteration_order)
    (dev : Chromecast) (yt_is_active : bool) (self : DeviceWrapper) :
  media_status dev = None ->
  let named := present [mc_title (media_controller dev); dev_app_display_name dev] in
  exists m : gmap string mvalue,
    metadata b c o dev yt_is_active self = Ok (m, self) /\
    dom m = metadata_keys /\
    (_longest_duration self = NO_DURATION b \/
     ~ watermark_exceeds (_longest_duration self) 0 ->
     m !! "mpris:length" = Some (MNum (pyvalue_of_int (NO_DURATION b)))) /\
    (truthy_value (mc_thumbnail (media_controller dev)) = None ->
     truthy_value (cast_icon dev) = None ->
     light_icon self = false ->
     m !! "mpris:artUrl" = Some (MStr (Some (DEFAULT_THUMB b)))) /\
    m !! "xesam:album" = Some (MStr None) /\
    m !! "xesam:title" = Some (MStr (named !! 0%nat)) /\
    m !! "xesam:artist" = Some (MList (tail named)) /\
    (named = [] ->
     m !! "xesam:title" = Some (MStr None) /\
     m !! "xesam:artist" = Some (MList [])).
Proof.
  intros Hm named.
  assert (Hd : get_duration b dev self = (fst (get_duration b dev self), self)).
  { unfold get_duration, explicit_duration, get_current_position.
    rewrite Hm. change BEGINNING with 0%Z.
    destruct (longest_exceeds _ _); reflexivity. }
  assert (Hn : (List.length named <= 2)%nat).
  { unfold named. simpl.
    repeat match goal with
           | |- context [truthy_value ?x] => destruct (truthy_value x); simpl
           end; lia. }
  assert (Hp : forall s, In s named -> pystr.truthy s = true).
  { intros s Hs. apply present_nonempty in Hs. destruct s; [contradiction | reflexivity]. }
  unfold metadata. rewrite titles_list, (title_sources_no_media dev Hm).
  fold named. rewrite Hd.
  destruct named as [|x [|y [|? ?]]] eqn:E; simpl in Hn; try lia; simpl;
    try rewrite (Hp y) by (simpl; auto);
    (eexists; split; [reflexivity|]);
    (split; [reflexivity|]);
    (split; [intros Hw; rewrite (get_duration_no_media b dev self Hm Hw); reflexivity|]);
    (split; [intros Ht Hi Hl; rewrite (get_art_url_default b dev self Ht Hi Hl); reflexivity|]);
    repeat split; try reflexivity; discriminate.
Qed.

Lemma metadata_no_media_status_witness :
  media_status silent_device = None /\
  exists m : gmap string mvalue,
    metadata example_base example_compat AsWritten silent_device false
      (DeviceWrapper_init example_base)
    = Ok (m, DeviceWrapper_init example_base) /\
    dom m = metadata_keys /\
    m !! "mpris:length" = Some (MNum PyNone) /\
    m !! "mpris:artUrl" = Some (MStr (Some "cc-black.png")) /\
    m !! "xesam:album" = Some (MStr None) /\
    m !! "xesam:title" = Some (MStr None) /\
    m !! "xesam:artist" = Some (MList []).
Proof.
  assert (H : media_status silent_device = None) by reflexivity.
  split; [exact H|].
  destruct (metadata_no_media_status example_base example_compat AsWritten
              silent_device false (DeviceWrapper_init example_base) H)
    as [m [H1 [H2 [H3 [H4 [H5 [H6 [H7 _]]]]]]]].
  exists m. split; [exact H1|]. split; [exact H2|].
  split; [apply H3; left; reflexivity|].
  split; [apply H4; reflexivity|].
  split; [exact H5|]. split; [exact H6 | exact H7].
Defined.

(** C9 as the specification words it fails on a device that shows its
    idle screen: the media status is empty, and the title is the name of
    the running application. *)
Lemma metadata_title_of_idle_device :
  media_status idle_device = None /\
  exists m : gmap string mvalue,
    metadata example_base example_compat AsWritten idle_device false
      (DeviceWrapper_init example_base)
    = Ok (m, DeviceWrapper_init example_base) /\
    m !! "xesam:title" = Some (MStr (Some "Backdrop")) /\
    m !! "xesam:title" <> Some (MStr None).
Proof.
  split; [reflexivity|]. eexists. split; [reflexivity|].
  split; [reflexivity | discriminate].
Qed.

(** Nor is the length the sentinel while a watermark is still stored. *)
Example metadata_length_of_stored_watermark :
  exists m : gmap string mvalue,
    metadata example_base example_compat AsWritten silent_device false
      {| _longest_duration := Some 5000000%Z; light_icon := false |}
    = Ok (m, {| _longest_duration := Some 5000000%Z; light_icon := false |}) /\
    m !! "mpris:length" = Some (MNum (PyInt 5000000)).
Proof. eexists. split; reflexivity. Qed.

(** ** Discovery *)

Lemma count_sleeps_app (t1 t2 : list event) :
  count_sleeps (t1 ++ t2) = (count_sleeps t1 + count_sleeps t2)%nat.
Proof.
  unfold count_sleeps. rewrite List.filter_app, List.length_app. reflexivity.
Qed.

(** A resolution attempt does not sleep. *)
Lemma attempt_no_sleep (net : nat -> Transport) (i : nat)
    (name host uuid : option string) (retry_wait : option Q) :
  count_sleeps (snd (attempt net i name host uuid retry_wait)) = 0%nat.
Proof.
  unfold attempt, create_adapters_and_server, find_device.
  destruct (truthy_value host); destruct (truthy_value uuid);
    destruct (truthy_value name);
    repeat match goal with
           | |- context [net i ?l ?r] => destruct (net i l r)
           | |- context [if ?c then _ else _] => destruct c
           end; reflexivity.
Qed.

(** With retrying disabled the loop returns after its first attempt. *)
Lemma retry_disabled (fuel : nat) (net : nat -> Transport) (i : nat) (b : Base)
    (name host uuid : option string) (retry_wait : option Q) :
  retry_until_found (S fuel) net i b name host uuid None retry_wait
  = (Some (fst (attempt net i name host uuid retry_wait)),
     snd (attempt net i name host uuid retry_wait)).
Proof.
  simpl. fold (attempt net i name host uuid retry_wait).
  destruct (attempt net i name host uuid retry_wait) as [[m|] trace]; reflexivity.
Qed.

(** After [k] failed sweeps and a successful one the loop returns the
    server, whatever fuel above [k] it was given. *)
Lemma retry_found (b : Base) (name host uuid : option string) (w : Q)
    (retry_wait : option Q) (net : nat -> Transport) (mpris : Server) :
  forall (k i fuel : nat),
    (forall j, (j < k)%nat ->
               fst (attempt net (i + j) name host uuid retry_wait) = None) ->
    fst (attempt net (i + k) name host uuid retry_wait) = Some mpris ->
    (k < fuel)%nat ->
    retry_until_found fuel net i b name host uuid (Some w) retry_wait
    = (Some (Some mpris),
       (failed_sweeps k net i b name host uuid w retry_wait
        ++ snd (attempt net (i + k) name host uuid retry_wait))%list).
Proof.
  induction k as [|k IH]; intros i fuel Hfail Hok Hfuel.
  - destruct fuel as [|fuel]; [lia|]. simpl.
    rewrite Nat.add_0_r in Hok. fold (attempt net i name host uuid retry_wait).
    rewrite Nat.add_0_r.
    destruct (attempt net i name host uuid retry_wait) as [[m|] trace];
      simpl in Hok; [|discriminate].
    injection Hok as ->. reflexivity.
  - destruct fuel as [|fuel]; [lia|]. simpl.
    fold (attempt net i name host uuid retry_wait).
    pose proof (Hfail 0%nat ltac:(lia)) as H0. rewrite Nat.add_0_r in H0.
    destruct (attempt net i name host uuid retry_wait) as [[m|] trace] eqn:E;
      simpl in H0; [discriminate|].
    rewrite (IH (S i) fuel).
    + simpl. rewrite <- Nat.add_succ_comm. rewrite <- !app_assoc. reflexivity.
    + intros j Hj. rewrite Nat.add_succ_comm. apply Hfail. lia.
    + rewrite Nat.add_succ_comm. exact Hok.
    + lia.
Qed.

(** While every sweep fails the loop is still running, each attempt
    followed by the log entry and the sleep. *)
Lemma retry_never_found (b : Base) (name host uuid : option string) (w : Q)
    (retry_wait : option Q) (net : nat -> Transport) :
  (forall j, fst (attempt net j name host uuid retry_wait) = None) ->
  forall (fuel i : nat),
    retry_until_found fuel net i b name host uuid (Some w) retry_wait
    = (None, failed_sweeps fuel net i b name host uuid w retry_wait).
Proof.
  intros Hfail. induction fuel as [|fuel IH]; intros i; [reflexivity|].
  simpl. fold (attempt net i name host uuid retry_wait).
  pose proof (Hfail i) as Hi.
  destruct (attempt net i name host uuid retry_wait) as [[m|] trace];
    simpl in Hi; [discriminate|].
  rewrite IH. reflexivity.
Qed.

Lemma failed_sweeps_sleeps (k : nat) (net : nat -> Transport) (i : nat) (b : Base)
    (name host uuid : option string) (w : Q) (retry_wait : option Q) :
  count_sleeps (failed_sweeps k net i b name host uuid w retry_wait) = k.
Proof.
  revert i. induction k as [|k IH]; intros i; [reflexivity|].
  simpl. rewrite count_sleeps_app, attempt_no_sleep.
  change (count_sleeps (ev_logging_info (device_label b name host uuid) w
                        :: ev_sleep w
                        :: failed_sweeps k net (S i) b name host uuid w retry_wait))
    with (S (count_sleeps (failed_sweeps k net (S i) b name host uuid w retry_wait))).
  rewrite IH. reflexivity.
Qed.

(** The loop returns empty only when retrying is disabled. *)
Lemma retry_empty_disabled (fuel : nat) (net : nat -> Transport) (b : Base)
    (name host uuid : option string) (wait retry_wait : option Q) :
  forall i,
    fst (retry_until_found fuel net i b name host uuid wait retry_wait) = Some None ->
    wait = None.
Proof.
  induction fuel as [|fuel IH]; intros i; simpl; [discriminate|].
  destruct (create_adapters_and_server (net i) name host uuid retry_wait)
    as [[m|] trace]; simpl; [discriminate|].
  destruct wait as [w|]; [|reflexivity].
  specialize (IH (S i)).
  destruct (retry_until_found fuel net (S i) b name host uuid (Some w) retry_wait)
    as [r rest]. simpl in *. exact IH.
Qed.

(** C6.  With the wait disabled the loop returns after exactly one
    resolution attempt, empty when the attempt failed, and without a
    sleep.  With a wait [w]: when the first [k] sweeps fail and the next
    one succeeds, the loop returns the server found, having logged the
    failure and slept [w] after each of the [k] failed attempts; and while
    no sweep succeeds it never returns, however long it runs, logging and
    sleeping after every attempt. *)
Theorem retry_until_found_spec (b : Base) (net : nat -> Transport)
    (name host uuid : option string) (retry_wait : option Q) :
  (forall fuel,
     fst (attempt net 0 name host uuid retry_wait) = None ->
     retry_until_found (S fuel) net 0 b name host uuid None retry_wait
     = (Some None, snd (attempt net 0 name host uuid retry_wait)) /\
     count_sleeps (snd (attempt net 0 name host uuid retry_wait)) = 0%nat) /\
  (forall w k fuel mpris,
     (forall j, (j < k)%nat ->
                fst (attempt net j name host uuid retry_wait) = None) ->
     fst (attempt net k name host uuid retry_wait) = Some mpris ->
     (k < fuel)%nat ->
     retry_until_found fuel net 0 b name host uuid (Some w) retry_wait
     = (Some (Some mpris),
        (failed_sweeps k net 0 b name host uuid w retry_wait
         ++ snd (attempt net k name host uuid retry_wait))%list) /\
     count_sleeps (failed_sweeps k net 0 b name host uuid w retry_wait) = k) /\
  (forall w fuel,
     (forall j, fst (attempt net j name host uuid retry_wait) = None) ->
     retry_until_found fuel net 0 b name host uuid (Some w) retry_wait
     = (None, failed_sweeps fuel net 0 b name host uuid w retry_wait) /\
     count_sleeps (failed_sweeps fuel net 0 b name host uuid w retry_wait) = fuel).
Proof.
  split; [|split].
  - intros fuel Hfail. rewrite retry_disabled, Hfail.
    split; [reflexivity | apply attempt_no_sleep].
  - intros w k fuel mpris Hfail Hok Hfuel. split.
    + apply (retry_found b name host uuid w retry_wait net mpris k 0 fuel);
        assumption.
    + apply failed_sweeps_sleeps.
  - intros w fuel Hfail. split.
    + apply retry_never_found, Hfail.
    + apply failed_sweeps_sleeps.
Qed.

Lemma retry_until_found_spec_witness :
  fst (attempt empty_network 0 (Some "TV") None None (Some 5%Q)) = None /\
  retry_until_found 1 empty_network 0 example_base (Some "TV") None None None (Some 5%Q)
  = (Some None, [ev_lookup (get_chromecast (Some "TV")) (Some 5%Q)]) /\
  fst (retry_until_found 3 (network_up_from 2 idle_device) 0 example_base
         (Some "TV") None None (Some 30%Q) (Some 5%Q))
  = Some (Some {| server_name := Some "TV"; server_adapter := idle_device |}).
Proof.
  assert (H0 : fst (attempt empty_network 0 (Some "TV") None None (Some 5%Q)) = None)
    by reflexivity.
  split; [exact H0|]. split.
  - exact (proj1 (proj1 (retry_until_found_spec example_base empty_network
                           (Some "TV") None None (Some 5%Q)) 0%nat H0)).
  - assert (Hfail : forall j, (j < 2)%nat ->
              fst (attempt (network_up_from 2 idle_device) j (Some "TV") None None
                     (Some 5%Q)) = None).
    { intros [|[|j]] Hj; [reflexivity | reflexivity | lia]. }
    rewrite (proj1 (proj1 (proj2 (retry_until_found_spec example_base
               (network_up_from 2 idle_device) (Some "TV") None None (Some 5%Q)))
               30%Q 2%nat 3%nat _ Hfail eq_refl ltac:(lia))).
    reflexivity.
Defined.

Example retry_until_found_trace :
  snd (retry_until_found 3 (network_up_from 1 idle_device) 0 example_base
         (Some "TV") None None (Some 30%Q) (Some 5%Q))
  = [ ev_lookup (get_chromecast (Some "TV")) (Some 5%Q);
      ev_logging_info "TV" 30%Q;
      ev_sleep 30%Q;
      ev_lookup (get_chromecast (Some "TV")) (Some 5%Q);
      ev_publish {| server_name := Some "TV"; server_adapter := idle_device |};
      ev_register_mpris_adapter
        {| server_name := Some "TV"; server_adapter := idle_device |} ].
Proof. reflexivity. Qed.

(** ** The top-level run *)

(** C7.  [run_server] ends according to what discovery returned: while
    discovery is still running so is the run; when discovery returned
    empty, which it does only with retrying disabled, [run_server] raises
    [NoChromecastFoundException], and [run_safe] logs a warning and exits
    with [RC_NO_CHROMECAST], a code that is not zero as long as the
    constant of base.py is not; when discovery returned a server,
    [run_server] raises nothing and enters the server's loop, and
    [run_safe] does the same.  In particular, with retrying disabled and a
    first attempt that fails, [run_safe] exits with that code. *)
Theorem run_server_spec (fuel : nat) (net : nat -> Transport) (b : Base)
    (name host uuid : option string) (wait retry_wait : option Q)
    (icon : bool) (log_level : string) :
  let found := retry_until_found fuel net 0 b name host uuid wait retry_wait in
  let run := run_server fuel net b name host uuid wait retry_wait icon log_level in
  let safe := run_safe fuel net b name host uuid wait retry_wait icon log_level in
  let device := device_label b name host uuid in
  ((exists e, fst run = Some (Raise (NoChromecastFoundException e)))
   <-> fst found = Some None) /\
  (fst found = None -> fst run = None /\ safe = run) /\
  (fst found = Some None ->
   wait = None /\
   run = (Some (Raise (NoChromecastFoundException device)),
          (set_log_level log_level ++ snd found)%list) /\
   safe = (Some (Raise (SystemExit (RC_NO_CHROMECAST b))),
           (snd run ++ [ev_logging_warning device;
                        ev_sys_exit (RC_NO_CHROMECAST b)])%list) /\
   (RC_NO_CHROMECAST b <> 0%Z -> fst safe <> Some (Raise (SystemExit 0)))) /\
  (forall mpris,
     fst found = Some (Some mpris) ->
     run = (Some (Ok tt),
            (set_log_level log_level ++ snd found
             ++ (if icon then [ev_set_icon mpris true] else [])
             ++ [ev_loop mpris])%list) /\
     safe = run) /\
  (wait = None ->
   fst (attempt net 0 name host uuid retry_wait) = None ->
   fuel <> 0%nat ->
   fst safe = Some (Raise (SystemExit (RC_NO_CHROMECAST b)))).
Proof.
  intros found run safe device.
  assert (Hone : wait = None ->
                 fst (attempt net 0 name host uuid retry_wait) = None ->
                 fuel <> 0%nat -> fst found = Some None).
  { intros -> Hfail Hfuel. unfold found.
    destruct fuel as [|fuel']; [contradiction|].
    rewrite retry_disabled, Hfail. reflexivity. }
  pose proof (retry_empty_disabled fuel net b name host uuid wait retry_wait 0)
    as Hdis. fold found in Hdis.
  unfold safe, run_safe. fold run. unfold run, run_server. fold found. fold device.
  destruct found as [[[mpris|]|] sweeps]; simpl fst in *; simpl snd in *.
  - split; [split; [intros [e He] | discriminate]|].
    { destruct icon; simpl in He; discriminate. }
    split; [discriminate|]. split; [discriminate|].
    split; [|intros Hw Hf Hn; specialize (Hone Hw Hf Hn); discriminate].
    intros m [= <-]. destruct icon; simpl; rewrite <- ?app_assoc; split; reflexivity.
  - split; [split; [reflexivity | intros _; eexists; reflexivity]|].
    split; [discriminate|].
    split; [intros _; split; [apply Hdis; reflexivity |
                              split; [reflexivity | split; [reflexivity|]]]|].
    { simpl. intros Hrc [= Hz]. contradiction. }
    split; [discriminate|]. intros _ _ _. reflexivity.
  - split; [split; [intros [e He]; discriminate | discriminate]|].
    split; [intros _; split; reflexivity|].
    split; [discriminate|]. split; [discriminate|].
    intros Hw Hf Hn. specialize (Hone Hw Hf Hn). discriminate.
Qed.

Lemma run_server_spec_witness :
  fst (attempt empty_network 0 (Some "TV") None None (Some 5%Q)) = None /\
  fst (run_safe 1 empty_network example_base (Some "TV") None None None (Some 5%Q)
         false "warn")
  = Some (Raise (SystemExit 1)).
Proof.
  assert (H0 : fst (attempt empty_network 0 (Some "TV") None None (Some 5%Q)) = None)
    by reflexivity.
  split; [exact H0|].
  apply (proj2 (proj2 (proj2 (proj2
    (run_server_spec 1 empty_network example_base (Some "TV") None None None
       (Some 5%Q) false "warn"))))); [reflexivity | exact H0 | discriminate].
Defined.

Example run_safe_trace :
  run_safe 1 empty_network example_base (Some "TV") None None None (Some 5%Q)
    false "warn"
  = (Some (Raise (SystemExit 1)),
     [ ev_basicConfig "WARN";
       ev_lookup (get_chromecast (Some "TV")) (Some 5%Q);
       ev_logging_warning "TV";
       ev_sys_exit 1 ]).
Proof. reflexivity. Qed.

(** ** The saved arguments *)

Lemma device_label_cases (b : Base) (name host uuid : option string) :
  device_label b name host uuid
  = match truthy_value name, truthy_value host, truthy_value uuid with
    | Some n, _, _ => n
    | None, Some h, _ => h
    | None, None, Some u => u
    | None, None, None => NO_DEVICE b
    end.
Proof.
  unfold device_label, or_else.
  destruct (truthy_value name), (truthy_value host), (truthy_value uuid); reflexivity.
Qed.

(** A save replaces what an earlier save left, whichever devices the two
    records name and whatever the constants of base.py are. *)
Lemma DaemonArgs_overwrite (b : Base) (args1 args2 : DaemonArgs.t)
    (fs : gmap Path DaemonArgs.bytes) :
  DaemonArgs.load b (DaemonArgs.save b args2 (DaemonArgs.save b args1 fs))
  = Ok (Some args2).
Proof.
  unfold DaemonArgs.load, DaemonArgs.save. rewrite lookup_insert_eq. reflexivity.
Qed.

(** C8, as the source has it.  The arguments are saved to, loaded from
    and deleted at the one file [ARGS], whatever device they name: a save
    writes that file and no other, a load after it returns the record
    saved, a delete after it removes the file; without the file a load
    returns nothing and a delete changes nothing.  The property [file]
    does derive a name from the device (its name, else its host, else its
    uuid, else [NO_DEVICE], followed by [-args]), but no operation of the
    store reads it. *)
Theorem DaemonArgs_store (b : Base) (args : DaemonArgs.t)
    (fs : gmap Path DaemonArgs.bytes) :
  DaemonArgs.load b (DaemonArgs.save b args fs) = Ok (Some args) /\
  DaemonArgs.save b args fs !! ARGS b = Some (DaemonArgs.pickle_dumps args) /\
  (forall p, p <> ARGS b -> DaemonArgs.save b args fs !! p = fs !! p) /\
  DaemonArgs.delete b (DaemonArgs.save b args fs) !! ARGS b = None /\
  (forall p, p <> ARGS b -> DaemonArgs.delete b fs !! p = fs !! p) /\
  (fs !! ARGS b = None ->
   DaemonArgs.load b fs = Ok None /\ DaemonArgs.delete b fs = fs) /\
  DaemonArgs.file b args
  = with_stem (ARGS b)
      (match truthy_value (DaemonArgs.name args),
             truthy_value (DaemonArgs.host args),
             truthy_value (DaemonArgs.uuid args) with
       | Some n, _, _ => n
       | None, Some h, _ => h
       | None, None, Some u => u
       | None, None, None => NO_DEVICE b
       end ++ "-args").
Proof.
  unfold DaemonArgs.file. rewrite device_label_cases.
  unfold DaemonArgs.load, DaemonArgs.save, DaemonArgs.delete.
  rewrite lookup_insert_eq. simpl.
  split; [reflexivity|]. split; [reflexivity|].
  split; [intros p Hp; apply lookup_insert_ne; congruence|].
  split; [apply lookup_delete_eq|].
  split.
  - intros p Hp. destruct (fs !! ARGS b); [|reflexivity].
    apply lookup_delete_ne. congruence.
  - split; [|reflexivity]. intros ->. split; reflexivity.
Qed.

Lemma DaemonArgs_store_witness :
  (∅ : gmap Path DaemonArgs.bytes) !! ARGS example_base = None /\
  DaemonArgs.load example_base ∅ = Ok None /\
  DaemonArgs.delete example_base ∅ = ∅ /\
  DaemonArgs.load example_base (DaemonArgs.save example_base tv_args ∅)
  = Ok (Some tv_args).
Proof.
  assert (H : (∅ : gmap Path DaemonArgs.bytes) !! ARGS example_base = None)
    by apply lookup_empty.
  pose proof (DaemonArgs_store example_base tv_args ∅) as [H1 [_ [_ [_ [_ [H6 _]]]]]].
  split; [exact H|]. split; [exact (proj1 (H6 H))|].
  split; [exact (proj2 (H6 H)) | exact H1].
Defined.

(** C8 as the specification words it fails: the arguments saved for one
    device do not survive a save for another device, and the file that
    [file] names for a device is never written. *)
Lemma DaemonArgs_not_per_device :
  DaemonArgs.file example_base tv_args <> DaemonArgs.file example_base kitchen_args /\
  DaemonArgs.load example_base
    (DaemonArgs.save example_base kitchen_args
       (DaemonArgs.save example_base tv_args ∅))
  = Ok (Some kitchen_args) /\
  DaemonArgs.load example_base
    (DaemonArgs.save example_base kitchen_args
       (DaemonArgs.save example_base tv_args ∅))
  <> Ok (Some tv_args) /\
  DaemonArgs.save example_base tv_args ∅ !! DaemonArgs.file example_base tv_args
  = None.
Proof.
  split; [discriminate|].
  split; [apply (DaemonArgs_overwrite example_base)|].
  split.
  - rewrite (DaemonArgs_overwrite example_base). discriminate.
  - unfold DaemonArgs.save. rewrite lookup_insert_ne by discriminate.
    apply lookup_empty.
Qed.

(** * Further properties of the wrapper and of the run *)

(** ** Rounding *)

(** Rounding gives a positive integer exactly above one half. *)
Lemma round_half_even_pos (q : Q) :
  (0 < round_half_even q)%Z <-> (1 # 2 < q)%Q.
Proof.
  unfold round_half_even.
  pose proof (Qfloor_le q) as Hlo. pose proof (Qlt_floor q) as Hhi.
  rewrite inject_Z_plus in Hhi. change (inject_Z 1) with 1%Q in Hhi.
  destruct (Z.lt_trichotomy (Qfloor q) 0) as [Hneg|[Hz|Hpos]].
  - assert (Hq : (q < 0)%Q).
    { assert (Hle : (Qfloor q + 1 <= 0)%Z) by lia.
      rewrite Zle_Qle, inject_Z_plus in Hle.
      change (inject_Z 1) with 1%Q in Hle. change (inject_Z 0) with 0%Q in Hle. lra. }
    split; [|intros; lra].
    destruct (Qcompare _ _); [destruct (Z.even _)| |]; lia.
  - rewrite Hz in *. change (inject_Z 0) with 0%Q in *.
    destruct (Qcompare_spec (q - 0) (1 # 2)) as [E|E|E]; simpl.
    + split; [lia | intros; lra].
    + split; [lia | intros; lra].
    + split; [intros _; lra | lia].
  - assert (Hq : (1 <= q)%Q).
    { assert (Hle : (1 <= Qfloor q)%Z) by lia.
      rewrite Zle_Qle in Hle. change (inject_Z 1) with 1%Q in Hle. lra. }
    split; [intros _; lra|]. intros _.
    destruct (Qcompare _ _); [destruct (Z.even _)| |]; lia.
Qed.

(** ** The status-change hook *)

Lemma py_round_1_pos (t : Q) :
  Qltb (inject_Z BEGINNING) (py_round t RESOLUTION) = true <-> (1 # 20 < t)%Q.
Proof.
  rewrite Qltb_lt. unfold py_round, RESOLUTION, BEGINNING.
  change (inject_Z (10 ^ Z.of_nat 1)) with (10 # 1)%Q.
  change (inject_Z 0) with 0%Q.
  pose proof (round_half_even_pos (t * (10 # 1))) as H.
  set (r := round_half_even (t * (10 # 1))) in *.
  assert (Hr : (0 < inject_Z r / (10 # 1))%Q <-> (0 < r)%Z).
  { rewrite Zlt_Qlt. change (inject_Z 0) with 0%Q. split; intros Hx.
    - assert (E : (inject_Z r == inject_Z r / (10 # 1) * (10 # 1))%Q) by field.
      rewrite E. nra.
    - assert (E : (inject_Z r / (10 # 1) == inject_Z r * (1 # 10))%Q) by field.
      rewrite E. nra. }
  rewrite Hr, H. split; intros Hx; lra.
Qed.

(** X3: the device has a current time exactly when its media status
    reports one above a twentieth of a second, the least that does not
    round to zero at one decimal; so [on_new_status] keeps the watermark
    exactly then and clears it otherwise. *)
Theorem has_current_time_threshold (dev : Chromecast) (self : DeviceWrapper) :
  (has_current_time dev = true <->
   exists status t,
     media_status dev = Some status /\
     ms_current_time status = Some t /\
     (1 # 20 < t)%Q) /\
  (has_current_time dev = true -> on_new_status dev self = self) /\
  (has_current_time dev = false ->
   on_new_status dev self = set_longest self None).
Proof.
  split; [|split].
  - unfold has_current_time. split.
    + destruct (media_status dev) as [status|]; [|discriminate].
      destruct (ms_current_time status) as [t|] eqn:T; [|discriminate].
      destruct (negb (truthy_Q t)); [discriminate|].
      intros H. apply py_round_1_pos in H. exists status, t. auto.
    + intros [status [t [-> [-> Ht]]]].
      assert (Hnz : truthy_Q t = true).
      { unfold truthy_Q. destruct (Qeq_bool t 0) eqn:E; [|reflexivity].
        apply Qeq_bool_iff in E. lra. }
      rewrite Hnz. simpl. apply py_round_1_pos, Ht.
  - intros H. unfold on_new_status. rewrite H. reflexivity.
  - intros H. unfold on_new_status. rewrite H. reflexivity.
Qed.

Lemma has_current_time_threshold_witness :
  has_current_time (playing_device (6 # 100)) = true /\
  on_new_status (playing_device (6 # 100))
    {| _longest_duration := Some 7%Z; light_icon := false |}
  = {| _longest_duration := Some 7%Z; light_icon := false |}.
Proof.
  assert (H : has_current_time (playing_device (6 # 100)) = true).
  { apply (proj1 (has_current_time_threshold (playing_device (6 # 100))
                    {| _longest_duration := Some 7%Z; light_icon := false |})).
    eexists. exists (6 # 100)%Q.
    split; [reflexivity|]. split; [reflexivity|]. reflexivity. }
  split; [exact H|].
  exact (proj1 (proj2 (has_current_time_threshold (playing_device (6 # 100))
                         {| _longest_duration := Some 7%Z; light_icon := false |})) H).
Defined.

(** ** More on the duration tracker *)

(** X4: asking for the duration again, of a device in the same status,
    gives the same answer and leaves the wrapper as the first call left
    it. *)
Theorem get_duration_idempotent (b : Base) (dev : Chromecast) (self : DeviceWrapper) :
  get_duration b dev (snd (get_duration b dev self)) = get_duration b dev self.
Proof.
  unfold get_duration.
  destruct (explicit_duration dev); [reflexivity|].
  destruct (longest_exceeds (_longest_duration self) (get_current_position dev))
    eqn:L; cbn [snd]; [rewrite L; reflexivity|].
  destruct (truthy_Z (get_current_position dev)) eqn:T;
    cbn [snd set_longest _longest_duration].
  - unfold longest_exceeds. rewrite Z.ltb_irrefl, andb_false_r. reflexivity.
  - rewrite L. reflexivity.
Qed.

(** X5: when the device reports no explicit duration, and its position is
    not zero or lies below a watermark, the length returned is a number
    that is at least the position, and it is the watermark the call
    leaves. *)
Theorem get_duration_covers_position (b : Base) (dev : Chromecast)
    (self : DeviceWrapper) :
  explicit_duration dev = None ->
  get_current_position dev <> 0%Z \/
  watermark_exceeds (_longest_duration self) (get_current_position dev) ->
  exists d,
    fst (get_duration b dev self) = PyInt d /\
    _longest_duration (snd (get_duration b dev self)) = Some d /\
    (get_current_position dev <= d)%Z.
Proof.
  intros He Hc. unfold get_duration. rewrite He.
  destruct (longest_exceeds (_longest_duration self) (get_current_position dev))
    eqn:L.
  - apply longest_exceeds_spec in L. destruct L as [l [Hl [_ Hlt]]].
    exists l. simpl. rewrite Hl. split; [reflexivity | split; [reflexivity | lia]].
  - destruct Hc as [Hc|Hc].
    + unfold truthy_Z. apply Z.eqb_neq in Hc. rewrite Hc. simpl.
      eexists. split; [reflexivity | split; [reflexivity | lia]].
    + apply longest_exceeds_spec in Hc. congruence.
Qed.

Lemma get_duration_covers_position_witness :
  explicit_duration (playing_device 3) = None /\
  exists d,
    fst (get_duration example_base (playing_device 3)
           {| _longest_duration := Some 5000000%Z; light_icon := false |}) = PyInt d /\
    (get_current_position (playing_device 3) <= d)%Z.
Proof.
  assert (H : explicit_duration (playing_device 3) = None) by reflexivity.
  assert (Hp : get_current_position (playing_device 3) <> 0%Z)
    by (vm_compute; discriminate).
  split; [exact H|].
  destruct (get_duration_covers_position example_base (playing_device 3)
              {| _longest_duration := Some 5000000%Z; light_icon := false |} H
              (or_introl Hp)) as [d [H1 [_ H3]]].
  exists d. split; [exact H1 | exact H3].
Defined.

(** ** Icons *)

(** X6: the art URL is the first that exists of the thumbnail of the media
    controller and the icon of the cast status, whatever the light-icon
    flag; only without both does the flag choose, between the light asset
    and the default one, and [set_icon] changes nothing else: the
    watermark stays, and so does the art URL of a device that has a
    thumbnail or an icon. *)
Theorem get_art_url_chain (b : Base) (dev : Chromecast) (self : DeviceWrapper)
    (lighter : bool) :
  (forall thumb,
     truthy_value (mc_thumbnail (media_controller dev)) = Some thumb ->
     get_art_url b dev self = thumb) /\
  (forall icon,
     truthy_value (mc_thumbnail (media_controller dev)) = None ->
     truthy_value (cast_icon dev) = Some icon ->
     get_art_url b dev self = icon) /\
  (truthy_value (mc_thumbnail (media_controller dev)) = None ->
   truthy_value (cast_icon dev) = None ->
   get_art_url b dev (set_icon lighter self)
   = if lighter then LIGHT_THUMB b else DEFAULT_THUMB b) /\
  (truthy_value (mc_thumbnail (media_controller dev)) <> None \/
   truthy_value (cast_icon dev) <> None ->
   get_art_url b dev (set_icon lighter self) = get_art_url b dev self) /\
  _longest_duration (set_icon lighter self) = _longest_duration self.
Proof.
  unfold get_art_url. fold (cast_icon dev).
  split; [|split; [|split; [|split]]].
  - intros thumb ->. reflexivity.
  - intros icon -> ->. reflexivity.
  - intros -> ->. reflexivity.
  - intros H.
    destruct (truthy_value (mc_thumbnail (media_controller dev))); [reflexivity|].
    destruct (truthy_value (cast_icon dev)); [reflexivity|].
    destruct H as [H|H]; contradiction.
  - reflexivity.
Qed.

Lemma get_art_url_chain_witness :
  truthy_value (mc_thumbnail (media_controller idle_device)) = None /\
  truthy_value (cast_icon idle_device) = None /\
  get_art_url example_base idle_device
    (set_icon true (DeviceWrapper_init example_base)) = "cc-white.png" /\
  get_art_url example_base track_device
    (set_icon true (DeviceWrapper_init example_base)) = "http://tv/icon.png".
Proof.
  assert (H1 : truthy_value (mc_thumbnail (media_controller idle_device)) = None)
    by reflexivity.
  assert (H2 : truthy_value (cast_icon idle_device) = None) by reflexivity.
  split; [exact H1|]. split; [exact H2|]. split.
  - exact (proj1 (proj2 (proj2 (get_art_url_chain example_base idle_device
             (DeviceWrapper_init example_base) true))) H1 H2).
  - apply (proj1 (proj2 (get_art_url_chain example_base track_device
             (set_icon true (DeviceWrapper_init example_base)) true)));
      reflexivity.
Defined.

(** X7: the desktop entry is computed once: the first call asks
    [create_desktop_file] with the flag of that moment and every later
    call returns the same entry, also after [set_icon] has changed the
    flag; an entry computed from a path carries no suffix. *)
Theorem get_desktop_entry_cached (create_desktop_file : bool -> option Path)
    (NO_DESKTOP_FILE : string) (self : DeviceWrapper) (lighter : bool) :
  let first := get_desktop_entry create_desktop_file NO_DESKTOP_FILE self None in
  get_desktop_entry create_desktop_file NO_DESKTOP_FILE
    (set_icon lighter self) (snd first) = first /\
  (forall path,
     create_desktop_file (light_icon self) = Some path ->
     fst first = path_parent path ++ "/" ++ path_stem path) /\
  (create_desktop_file (light_icon self) = None -> fst first = NO_DESKTOP_FILE).
Proof.
  unfold get_desktop_entry. simpl. split; [reflexivity|]. split.
  - intros path ->. unfold path_str, with_suffix, NO_SUFFIX. simpl.
    f_equal. f_equal. clear. induction (path_stem path) as [|c s IH];
      [reflexivity | rewrite append_cons, IH; reflexivity].
  - intros ->. reflexivity.
Qed.

Lemma get_desktop_entry_cached_witness :
  fst (get_desktop_entry
         (fun light =>
            Some {| path_parent := "/usr/share/applications";
                    path_stem := if light then "cast-light" else "cast";
                    path_suffix := ".desktop" |})
         EmptyString (DeviceWrapper_init example_base) None)
  = "/usr/share/applications/cast".
Proof.
  apply (proj1 (proj2 (get_desktop_entry_cached
           (fun light =>
              Some {| path_parent := "/usr/share/applications";
                      path_stem := if light then "cast-light" else "cast";
                      path_suffix := ".desktop" |})
           EmptyString (DeviceWrapper_init example_base) true))
           {| path_parent := "/usr/share/applications"; path_stem := "cast";
              path_suffix := ".desktop" |}).
  reflexivity.
Defined.

(** ** More on titles and metadata *)

(** X8: the fields of [Titles] are filled by position, not by kind: when
    the media title and the subtitle are both present, the subtitle is
    the [artist] of the tuple and the [album] is the first that is present
    of the artist, the album name and the application name. *)
Theorem titles_by_position (dev : Chromecast) (t s : string) :
  truthy_value (mc_title (media_controller dev)) = Some t ->
  truthy_value (get_subtitle dev) = Some s ->
  exists T,
    titles dev = Ok T /\
    title T = Some t /\
    artist T = Some s /\
    album T = List.hd_error (present (skipn 2 (title_sources dev))).
Proof.
  intros Ht Hs. rewrite titles_list.
  rewrite get_subtitle_lookup in Hs.
  unfold title_sources in *. simpl nth in Hs. cbn [present skipn].
  rewrite Ht, Hs.
  destruct (media_status dev) as [status|]; cbn [present];
    repeat match goal with
           | |- context [truthy_value ?x] =>
               destruct (truthy_value x); cbn [present]
           end;
    eexists; (split; [reflexivity|]); repeat split.
Qed.

Lemma titles_by_position_witness :
  exists T,
    titles track_device = Ok T /\
    title T = Some "Title" /\ artist T = Some "Subtitle" /\ album T = Some "Artist".
Proof.
  destruct (titles_by_position track_device "Title" "Subtitle" eq_refl eq_refl)
    as [T [H1 [H2 [H3 H4]]]].
  exists T. repeat split; assumption.
Defined.


Example metadata_of_track :
  exists m : gmap string mvalue,
    metadata example_base example_compat AsWritten track_device true
      (DeviceWrapper_init example_base)
    = Ok (m, DeviceWrapper_init example_base) /\
    m !! "mpris:length" = Some (MNum (PyFloat (180 * inject_Z US_IN_SEC))) /\
    m !! "xesam:url" = Some (MStr (Some "https://youtube.com/watch?v=abc123")) /\
    m !! "xesam:title" = Some (MStr (Some "Title")) /\
    m !! "xesam:artist" = Some (MList ["Subtitle"]) /\
    m !! "xesam:album" = Some (MStr (Some "Artist")).
Proof. eexists. repeat split. Qed.

(** ** More on the content identifier *)

Lemma lower_ascii_idem (c : ascii) :
  pystr.lower_ascii (pystr.lower_ascii c) = pystr.lower_ascii c.
Proof.
  destruct c as [[] [] [] [] [] [] [] []]; reflexivity.
Qed.

Lemma lower_upper_ascii (c : ascii) :
  pystr.lower_ascii (pystr.upper_ascii c) = pystr.lower_ascii c.
Proof.
  destruct c as [[] [] [] [] [] [] [] []]; reflexivity.
Qed.

Lemma lower_idem (s : string) : pystr.lower (pystr.lower s) = pystr.lower s.
Proof.
  induction s as [|c s IH]; [reflexivity|].
  simpl. rewrite lower_ascii_idem, IH. reflexivity.
Qed.

Lemma lower_upper (s : string) : pystr.lower (pystr.upper s) = pystr.lower s.
Proof.
  induction s as [|c s IH]; [reflexivity|].
  simpl. rewrite lower_upper_ascii, IH. reflexivity.
Qed.

(** X10: the provider test does not depend on the case of the URI, nor on
    the order in which the set of host fragments is iterated. *)
Theorem is_youtube_case (o : iteration_order) (uri : string) :
  is_youtube o (pystr.lower uri) = is_youtube o uri /\
  is_youtube o (pystr.upper uri) = is_youtube o uri /\
  is_youtube o uri = is_youtube AsWritten uri.
Proof.
  unfold is_youtube. rewrite lower_idem, lower_upper.
  split; [reflexivity|]. split; [reflexivity|].
  destruct o; [reflexivity|]. simpl. rewrite !orb_false_r. apply orb_comm.
Qed.

Lemma before_first_no_sep (sep s r : string) :
  before_first sep s r -> pystr.contains sep r = false.
Proof.
  intros [[post [_ H]]|[H ->]]; exact H.
Qed.

(** X11: an identifier that [get_video_id] returns never holds an [&],
    and it is returned only for provider content; this holds for either
    order of the host fragments. *)
Theorem get_video_id_no_ampersand (o : iteration_order) (uri id : string) :
  get_video_id o uri = Some id ->
  pystr.contains "&" id = false /\ is_youtube o uri = true.
Proof.
  unfold get_video_id.
  destruct (is_youtube o uri); simpl; [|discriminate].
  intros H. split; [|reflexivity]. revert H.
  destruct (pystr.contains (YT_LONG o) uri);
    [|destruct (pystr.contains (YT_SHORT o) uri); [|discriminate]].
  - destruct (truncate_at_amp (pystr.unpack_last (pystr.split "v=" uri)))
      as [id' [Hb ->]].
    intros [= <-]. eapply before_first_no_sep, Hb.
  - destruct (truncate_at_amp (pystr.unpack_last (pystr.split "/" uri)))
      as [id' [Hb ->]].
    intros [= <-]. eapply before_first_no_sep, Hb.
Qed.

Lemma get_video_id_no_ampersand_witness :
  get_video_id AsWritten "https://www.youtube.com/watch?v=abc123&list=xyz"
  = Some "abc123" /\
  pystr.contains "&" "abc123" = false.
Proof.
  assert (H : get_video_id AsWritten
                "https://www.youtube.com/watch?v=abc123&list=xyz" = Some "abc123")
    by reflexivity.
  split; [exact H|].
  exact (proj1 (get_video_id_no_ampersand AsWritten _ _ H)).
Defined.

Lemma split_two (sep s a b : string) (n : nat) :
  pystr.partition sep s = Some (a, b) ->
  pystr.partition sep b = None ->
  (2 <= n)%nat ->
  pystr.split_fuel n sep s = [a; b].
Proof.
  intros Hs Hb Hn. destruct n as [|[|n]]; [lia | lia |].
  simpl. rewrite Hs, Hb. reflexivity.
Qed.

(** The identifier of a video URL built by [_get_url]. *)
Lemma get_video_id_of_url (o : iteration_order) (id : string) :
  pystr.contains "v=" id = false ->
  pystr.contains "&" id = false ->
  get_video_id o (YT_VID_URL o ++ id) = Some id.
Proof.
  intros Hv Ha. apply partition_None in Hv.
  unfold get_video_id.
  assert (Hy : is_youtube o (YT_VID_URL o ++ id) = true)
    by (destruct o; vm_compute; reflexivity).
  assert (Hl : pystr.contains (YT_LONG o) (YT_VID_URL o ++ id) = true)
    by (destruct o; vm_compute; reflexivity).
  rewrite Hy, Hl. simpl negb. cbv iota.
  assert (Hs : pystr.unpack_last (pystr.split "v=" (YT_VID_URL o ++ id)) = id).
  { unfold pystr.split.
    assert (Hn : (2 <= S (String.length (YT_VID_URL o ++ id)))%nat).
    { rewrite length_append. destruct o; simpl; lia. }
    destruct o.
    - rewrite (split_two "v=" _ "https://youtube.com/watch?" id);
        [reflexivity | reflexivity | exact Hv | exact Hn].
    - rewrite (split_two "v=" _ "https://youtu.be/watch?" id);
        [reflexivity | reflexivity | exact Hv | exact Hn]. }
  rewrite Hs, Ha, andb_false_r. reflexivity.
Qed.

(** X12: the URL that [_get_url] makes of a YouTube content id leads back
    to that id: when the YouTube controller is active and the content id
    of the media status is not empty and holds neither [http] nor [v=] nor
    [&], [_get_url] returns the video URL of that id, and [get_video_id]
    of this URL is the id; this holds for either order of the host
    fragments. *)
Theorem get_url_round_trip (o : iteration_order) (dev : Chromecast)
    (status : MediaStatus) (id : string) :
  media_status dev = Some status ->
  ms_content_id status = Some id ->
  id <> EmptyString ->
  pystr.contains "http" id = false ->
  pystr.contains "v=" id = false ->
  pystr.contains "&" id = false ->
  _get_url o dev true = Some (YT_VID_URL o ++ id) /\
  get_video_id o (YT_VID_URL o ++ id) = Some id.
Proof.
  intros Hm Hc Hne Hh Hv Ha. split; [|apply get_video_id_of_url; assumption].
  unfold _get_url. rewrite Hm, Hc. unfold truthy_value.
  destruct id as [|c id]; [contradiction|]. cbn [pystr.truthy].
  rewrite Hh. reflexivity.
Qed.

Lemma get_url_round_trip_witness :
  _get_url AsWritten track_device true = Some "https://youtube.com/watch?v=abc123" /\
  get_video_id AsWritten "https://youtube.com/watch?v=abc123" = Some "abc123".
Proof.
  exact (get_url_round_trip AsWritten track_device _ "abc123" eq_refl eq_refl
           ltac:(discriminate) eq_refl eq_refl eq_refl).
Defined.

(** ** Playing and queueing a URI *)

(** X13: [open_uri] starts playback exactly once, through the YouTube
    controller when the URI yields a video id that is not empty (after
    launching the controller if it is not active) and through the media
    controller otherwise; [add_track] starts playback once when the track
    is to be current and not at all otherwise, never launches the YouTube
    controller for a video it queues, and drops a URI without a video id
    when the track is not to be current. *)
Theorem open_uri_plays_once (o : iteration_order)
    (guess_type : string -> option string) (yt_is_active : bool)
    (uri after_track : string) (set_as_current : bool) :
  plays (open_uri o guess_type yt_is_active uri) = 1%nat /\
  (truthy_value (get_video_id o uri) = None ->
   open_uri o guess_type yt_is_active uri = [mc_play_media uri (guess_type uri)] /\
   add_track o guess_type yt_is_active uri after_track false = [] /\
   add_track o guess_type yt_is_active uri after_track true
   = open_uri o guess_type yt_is_active uri) /\
  (forall id,
     truthy_value (get_video_id o uri) = Some id ->
     open_uri o guess_type yt_is_active uri
     = ((if yt_is_active then [] else [yt_launch]) ++ [yt_play_video id])%list /\
     add_track o guess_type yt_is_active uri after_track set_as_current
     = (yt_add_to_queue id :: if set_as_current then [yt_play_video id] else [])) /\
  plays (add_track o guess_type yt_is_active uri after_track set_as_current)
  = (if set_as_current then 1 else 0)%nat.
Proof.
  unfold add_track, open_uri, _play_youtube, _launch_youtube, plays.
  destruct (truthy_value (get_video_id o uri)) as [id|].
  - split; [destruct yt_is_active; reflexivity|].
    split; [discriminate|].
    split; [|destruct set_as_current; reflexivity].
    intros id' [= <-]. split; [destruct yt_is_active; reflexivity|].
    destruct set_as_current; reflexivity.
  - split; [reflexivity|].
    split; [intros _; repeat split|].
    split; [discriminate|]. destruct set_as_current; reflexivity.
Qed.

Lemma open_uri_plays_once_witness :
  truthy_value (get_video_id AsWritten "https://youtu.be/") = None /\
  open_uri AsWritten (fun _ => None) true "https://youtu.be/"
  = [mc_play_media "https://youtu.be/" None] /\
  add_track AsWritten (fun _ => None) true "https://youtu.be/" "/track/1" false = [].
Proof.
  assert (H : truthy_value (get_video_id AsWritten "https://youtu.be/") = None)
    by reflexivity.
  destruct (proj1 (proj2 (open_uri_plays_once AsWritten (fun _ => None) true
                            "https://youtu.be/" "/track/1" false)) H)
    as [H1 [H2 _]].
  split; [exact H|]. split; [exact H1 | exact H2].
Defined.

(** ** More on discovery *)

Lemma truthy_str_value (x : option string) :
  truthy_str x = match truthy_value x with Some _ => true | None => false end.
Proof.
  destruct x as [s|]; [|reflexivity]. simpl. destruct (pystr.truthy s); reflexivity.
Qed.

(** X14: [find_device] asks the transport client for the identifiers that
    were given, the host first, then the uuid, then the name, and for any
    device when none was given; it stops at the first answer and returns
    it, and returns nothing when every request fails.  It makes at least
    one request and at most three. *)
Theorem find_device_first_found (net : Transport) (name host uuid : option string)
    (retry_wait : option Q) :
  find_device net name host uuid retry_wait
  = first_found net retry_wait (candidates name host uuid) /\
  (1 <= List.length (snd (find_device net name host uuid retry_wait)) <= 3)%nat.
Proof.
  unfold find_device, candidates. rewrite !truthy_str_value.
  destruct (truthy_value host) as [h|], (truthy_value uuid) as [u|],
    (truthy_value name) as [n|]; simpl;
    repeat match goal with
           | |- context [net ?l retry_wait] =>
               destruct (net l retry_wait); simpl
           end; split; (reflexivity || lia).
Qed.

Lemma count_app (p : event -> bool) (t1 t2 : list event) :
  count p (t1 ++ t2) = (count p t1 + count p t2)%nat.
Proof.
  unfold count. rewrite List.filter_app, List.length_app. reflexivity.
Qed.

(** What one resolution attempt leaves in the trace. *)
Lemma attempt_counts (net : nat -> Transport) (i : nat)
    (name host uuid : option string) (retry_wait : option Q) :
  let a := attempt net i name host uuid retry_wait in
  count is_sleep (snd a) = 0%nat /\
  count is_logging_info (snd a) = 0%nat /\
  count is_loop (snd a) = 0%nat /\
  count is_publish (snd a) = (match fst a with Some _ => 1 | None => 0 end)%nat.
Proof.
  cbv zeta. unfold attempt, create_adapters_and_server, find_device.
  rewrite !truthy_str_value.
  destruct (truthy_value host); destruct (truthy_value uuid);
    destruct (truthy_value name); simpl;
    repeat match goal with
           | |- context [net i ?l ?r] => destruct (net i l r); simpl
           end; repeat split; reflexivity.
Qed.

(** X15: in every run of the discovery loop, on whatever network and for
    however many sweeps, each sleep goes with one log entry and lasts the
    wait that was configured; nothing is slept when the wait is disabled;
    the server is published once when the loop returns one and never
    otherwise; the server's loop is not entered. *)
Theorem retry_trace_counts (net : nat -> Transport) (b : Base)
    (name host uuid : option string) (wait retry_wait : option Q) :
  forall (fuel i : nat),
    let run := retry_until_found fuel net i b name host uuid wait retry_wait in
    count is_sleep (snd run) = count is_logging_info (snd run) /\
    (wait = None -> count is_sleep (snd run) = 0%nat) /\
    Forall (fun e => is_sleep e = true -> option_map ev_sleep wait = Some e)
      (snd run) /\
    count is_publish (snd run)
    = (match fst run with Some (Some _) => 1 | _ => 0 end)%nat /\
    count is_loop (snd run) = 0%nat.
Proof.
  assert (Hs : forall i,
            Forall (fun e => is_sleep e = true -> option_map ev_sleep wait = Some e)
              (snd (attempt net i name host uuid retry_wait))).
  { intros i. apply Forall_forall. intros e He Hsl.
    pose proof (proj1 (attempt_counts net i name host uuid retry_wait)) as H0.
    unfold count in H0. apply List.length_zero_iff_nil in H0.
    assert (Hin : In e (List.filter is_sleep
                          (snd (attempt net i name host uuid retry_wait))))
      by (apply List.filter_In; split; [apply list_elem_of_In, He | exact Hsl]).
    rewrite H0 in Hin. contradiction. }
  induction fuel as [|fuel IH]; intros i; simpl.
  - repeat split. constructor.
  - fold (attempt net i name host uuid retry_wait).
    destruct (attempt_counts net i name host uuid retry_wait)
      as [A1 [A2 [A3 A4]]].
    specialize (Hs i).
    destruct (attempt net i name host uuid retry_wait) as [[m|] trace];
      simpl in A1, A2, A3, A4, Hs; simpl.
    + rewrite A1, A2, A3, A4. repeat split. exact Hs.
    + destruct wait as [w|].
      * specialize (IH (S i)).
        destruct (retry_until_found fuel net (S i) b name host uuid (Some w)
                    retry_wait) as [r rest].
        simpl in IH. destruct IH as [I1 [_ [I3 [I4 I5]]]]. simpl.
        rewrite !count_app, A1, A2, A3, A4.
        change (count is_sleep (ev_logging_info (device_label b name host uuid) w
                                :: ev_sleep w :: rest))
          with (S (count is_sleep rest)).
        change (count is_logging_info
                  (ev_logging_info (device_label b name host uuid) w
                   :: ev_sleep w :: rest))
          with (S (count is_logging_info rest)).
        change (count is_publish (ev_logging_info (device_label b name host uuid) w
                                  :: ev_sleep w :: rest))
          with (count is_publish rest).
        change (count is_loop (ev_logging_info (device_label b name host uuid) w
                               :: ev_sleep w :: rest))
          with (count is_loop rest).
        split; [simpl; rewrite I1; reflexivity|].
        split; [discriminate|].
        split; [|split; [exact I4 | exact I5]].
        apply Forall_app. split; [exact Hs|].
        constructor; [discriminate|]. constructor; [reflexivity | exact I3].
      * simpl. rewrite A1, A2, A3, A4. repeat split. exact Hs.
Qed.

(** ** More on the top-level run *)

(** Discovery never enters the server's loop. *)
Lemma retry_no_loop (net : nat -> Transport) (b : Base)
    (name host uuid : option string) (wait retry_wait : option Q) :
  forall (fuel i : nat),
    count is_loop (snd (retry_until_found fuel net i b name host uuid wait retry_wait))
    = 0%nat.
Proof.
  induction fuel as [|fuel IH]; intros i; simpl; [reflexivity|].
  fold (attempt net i name host uuid retry_wait).
  destruct (attempt_counts net i name host uuid retry_wait) as [_ [_ [A3 _]]].
  destruct (attempt net i name host uuid retry_wait) as [[m|] trace];
    simpl in A3; simpl; [exact A3|].
  destruct wait as [w|]; simpl; [|exact A3].
  specialize (IH (S i)).
  destruct (retry_until_found fuel net (S i) b name host uuid (Some w) retry_wait)
    as [r rest].
  simpl in *. rewrite count_app, A3. exact IH.
Qed.

Lemma last_snoc (l : list event) (x d : event) : List.last (l ++ [x]) d = x.
Proof. apply List.last_last. Qed.

(** X16: [run_safe] never lets [NoChromecastFoundException] out: it is
    still discovering, or has gone through the server's loop, or exits
    with [RC_NO_CHROMECAST]; the log level is configured, in upper case,
    before anything else; the server's loop is entered once, as the last
    thing, when the run ends normally, and not at all otherwise; and the
    exit is the last thing of a run that exits. *)
Theorem run_safe_outcomes (fuel : nat) (net : nat -> Transport) (b : Base)
    (name host uuid : option string) (wait retry_wait : option Q)
    (icon : bool) (log_level : string) :
  let safe := run_safe fuel net b name host uuid wait retry_wait icon log_level in
  (fst safe = None \/ fst safe = Some (Ok tt) \/
   fst safe = Some (Raise (SystemExit (RC_NO_CHROMECAST b)))) /\
  List.hd_error (snd safe) = Some (ev_basicConfig (pystr.upper log_level)) /\
  (fst safe = Some (Ok tt) ->
   count is_loop (snd safe) = 1%nat /\
   exists mpris, List.last (snd safe) (ev_basicConfig log_level) = ev_loop mpris) /\
  (fst safe <> Some (Ok tt) -> count is_loop (snd safe) = 0%nat) /\
  (fst safe = Some (Raise (SystemExit (RC_NO_CHROMECAST b))) ->
   List.last (snd safe) (ev_basicConfig log_level)
   = ev_sys_exit (RC_NO_CHROMECAST b)).
Proof.
  cbv zeta. unfold run_safe, run_server, set_log_level.
  pose proof (retry_no_loop net b name host uuid wait retry_wait fuel 0) as Hl.
  destruct (retry_until_found fuel net 0 b name host uuid wait retry_wait)
    as [[[m|]|] sweeps]; simpl in Hl.
  - assert (Hc : count is_loop
                   (([ev_basicConfig (pystr.upper log_level)] ++ sweeps)
                    ++ (if icon then [ev_set_icon m true] else [])) = 0%nat).
    { rewrite !count_app, Hl. destruct icon; reflexivity. }
    destruct icon; cbn [fst snd].
    + split; [right; left; reflexivity|]. split; [reflexivity|].
      split; [intros _; split;
              [rewrite count_app, Hc; reflexivity
              | exists m; apply last_snoc]|].
      split; [intros H; contradiction | discriminate].
    + split; [right; left; reflexivity|]. split; [reflexivity|].
      split; [intros _; split;
              [rewrite count_app; rewrite app_nil_r in Hc; rewrite Hc; reflexivity
              | exists m; apply last_snoc]|].
      split; [intros H; contradiction | discriminate].
  - cbn [fst snd].
    split; [right; right; reflexivity|]. split; [reflexivity|].
    split; [discriminate|].
    split.
    + intros _. rewrite !count_app, Hl. reflexivity.
    + intros _.
      change [ev_logging_warning (device_label b name host uuid);
              ev_sys_exit (RC_NO_CHROMECAST b)]
        with ([ev_logging_warning (device_label b name host uuid)]
              ++ [ev_sys_exit (RC_NO_CHROMECAST b)])%list.
      rewrite app_assoc. apply last_snoc.
  - cbn [fst snd].
    split; [left; reflexivity|]. split; [reflexivity|].
    split; [discriminate|].
    split; [intros _; rewrite count_app, Hl; reflexivity | discriminate].
Qed.

Lemma run_safe_outcomes_witness :
  fst (run_safe 3 (network_up_from 1 idle_device) example_base (Some "TV") None None
         (Some 30%Q) (Some 5%Q) true "info") = Some (Ok tt) /\
  count is_loop
    (snd (run_safe 3 (network_up_from 1 idle_device) example_base (Some "TV") None
            None (Some 30%Q) (Some 5%Q) true "info")) = 1%nat.
Proof.
  assert (H : fst (run_safe 3 (network_up_from 1 idle_device) example_base
                     (Some "TV") None None (Some 30%Q) (Some 5%Q) true "info")
              = Some (Ok tt)) by reflexivity.
  split; [exact H|].
  exact (proj1 (proj1 (proj2 (proj2
    (run_safe_outcomes 3 (network_up_from 1 idle_device) example_base (Some "TV")
       None None (Some 30%Q) (Some 5%Q) true "info"))) H)).
Defined.

(** ** More on the saved arguments *)

Lemma append_inj_r (s1 s2 t : string) : s1 ++ t = s2 ++ t -> s1 = s2.
Proof.
  revert s2. induction s1 as [|c s1 IH]; intros [|c2 s2] H.
  - reflexivity.
  - exfalso. apply (f_equal String.length) in H.
    rewrite !length_append in H. simpl in H. lia.
  - exfalso. apply (f_equal String.length) in H.
    rewrite !length_append in H. simpl in H. lia.
  - rewrite !append_cons in H. injection H as -> H. f_equal. apply IH, H.
Qed.

(** X17: the store keeps one record: a save replaces the file whatever it
    held, so that two saves leave what the second alone leaves; a delete
    undoes a save, and a second delete changes nothing; after a delete a
    load returns nothing.  The files that [file] names differ exactly when
    the labels of the devices do. *)
Theorem DaemonArgs_store_laws (b : Base) (args1 args2 : DaemonArgs.t)
    (fs : gmap Path DaemonArgs.bytes) :
  DaemonArgs.save b args2 (DaemonArgs.save b args1 fs) = DaemonArgs.save b args2 fs /\
  DaemonArgs.delete b (DaemonArgs.save b args1 fs) = DaemonArgs.delete b fs /\
  DaemonArgs.delete b (DaemonArgs.delete b fs) = DaemonArgs.delete b fs /\
  DaemonArgs.load b (DaemonArgs.delete b fs) = Ok None /\
  (DaemonArgs.file b args1 = DaemonArgs.file b args2 <->
   device_label b (DaemonArgs.name args1) (DaemonArgs.host args1)
     (DaemonArgs.uuid args1)
   = device_label b (DaemonArgs.name args2) (DaemonArgs.host args2)
       (DaemonArgs.uuid args2)).
Proof.
  assert (Hd : forall m : gmap Path DaemonArgs.bytes,
            DaemonArgs.delete b m = base.delete (ARGS b) m).
  { intros m. unfold DaemonArgs.delete.
    destruct (m !! ARGS b) eqn:E; [reflexivity|].
    symmetry. apply delete_id, E. }
  rewrite !Hd. unfold DaemonArgs.save, DaemonArgs.load.
  split; [apply insert_insert_eq|].
  split; [apply delete_insert_eq|].
  split; [apply delete_delete_eq|].
  split; [rewrite lookup_delete_eq; reflexivity|].
  unfold DaemonArgs.file, with_stem. split.
  - intros [= H]. apply append_inj_r in H. exact H.
  - intros ->. reflexivity.
Qed.

Lemma DaemonArgs_store_laws_witness :
  device_label example_base (DaemonArgs.name tv_args) (DaemonArgs.host tv_args)
    (DaemonArgs.uuid tv_args)
  = device_label example_base (DaemonArgs.name tv_args) (DaemonArgs.host tv_args)
      (DaemonArgs.uuid tv_args) /\
  DaemonArgs.file example_base tv_args = DaemonArgs.file example_base tv_args /\
  DaemonArgs.load example_base
    (DaemonArgs.delete example_base (DaemonArgs.save example_base tv_args ∅))
  = Ok None.
Proof.
  pose proof (DaemonArgs_store_laws example_base tv_args tv_args
                (DaemonArgs.save example_base tv_args ∅))
    as [_ [_ [_ [H4 H5]]]].
  split; [reflexivity|]. split; [apply H5; reflexivity | exact H4].
Defined.
